(** * Meridian account service: [server.js]

    A shallow embedding of the four Express handlers of [server.js]
    ([POST /api/register], [POST /api/login], [POST /api/add-points],
    [GET /api/user/:userId]) over a model of the [users] table that the file
    creates at start-up, and the properties of the account workflow.

    Each handler is an [async] function: it is embedded as a program of
    awaited operations ([Async]), so that the same definition is run
    sequentially against the store ([run]) and interleaved with other
    requests at its [await] points ([step]). *)

From Stdlib Require Import ZArith List Bool String Ascii DecimalString Lia.
Import ListNotations.
Open Scope string_scope.
Open Scope Z_scope.

(** ** JSON payloads *)

#[local] Set Warnings "-register-all".

Inductive Json : Type :=
| JNull
| JBool (b : bool)
| JNum (z : Z)
| JStr (s : string)
| JObj (fields : list (string * Json)).

(** [mentions k j]: some object inside [j] has a field named [k]. *)
Fixpoint mentions (k : string) (j : Json) : bool :=
  match j with
  | JObj fields =>
      existsb (fun kv => match kv with
                         | (k', v) => String.eqb k k' || mentions k v
                         end) fields
  | _ => false
  end.

(** Field access on a payload, [obj.k]; [None] is JavaScript's [undefined]. *)
Fixpoint assoc (k : string) (fields : list (string * Json)) : option Json :=
  match fields with
  | [] => None
  | (k', v) :: rest => if String.eqb k k' then Some v else assoc k rest
  end.

Definition field (k : string) (j : Json) : option Json :=
  match j with
  | JObj fields => assoc k fields
  | _ => None
  end.

(** An object literal with one property that may be [undefined]:
    [JSON.stringify] leaves such a property out. *)
Definition optional_field (k : string) (v : option Json) : list (string * Json) :=
  match v with
  | Some j => [(k, j)]
  | None => []
  end.

(** ** Responses: [res.status(code).json(payload)] *)

Record Response : Type := mkResponse { status : Z; body : Json }.

(** [res.json(payload)]: the status stays at Express's default, 200. *)
Definition res_json (payload : Json) : Response :=
  {| status := 200; body := payload |}.

Definition res_status_json (code : Z) (payload : Json) : Response :=
  {| status := code; body := payload |}.

(** ** Errors and promise outcomes *)

Record JsError : Type := mkError { message : string }.

Inductive Outcome (A : Type) : Type :=
| Resolved (a : A)
| Rejected (err : JsError).
Arguments Resolved {A} a.
Arguments Rejected {A} err.

Definition msg_login : string := "Неверный логин или пароль".
Definition msg_missing : string := "Пользователь не найден".

(** ** The [users] table

    [CREATE TABLE IF NOT EXISTS users] of [server.js]: one record per row,
    one field per column, named as the columns are. *)

Module users.
Record row : Type := mkRow {
    id : Z;                 (* SERIAL PRIMARY KEY *)
    email : string;         (* VARCHAR(255) UNIQUE NOT NULL *)
    username : string;      (* VARCHAR(100) UNIQUE NOT NULL *)
    password : string;      (* VARCHAR(255) NOT NULL *)
    points : option Z;      (* INTEGER DEFAULT 0; [None] is NULL *)
    created_at : Z          (* TIMESTAMP DEFAULT CURRENT_TIMESTAMP *)
  }.
End users.

(** The store: the rows of [users] in insertion order and the sequence
    [users_id_seq] that [SERIAL] attaches to [id]; [users_id_seq] holds the
    value the next [nextval] returns. *)
Record Store : Type := mkStore {
  rows : list users.row;
  users_id_seq : Z
}.

Definition empty_store : Store := {| rows := []; users_id_seq := 1 |}.

(** [INTEGER] (and [SERIAL]) is PostgreSQL's four-byte signed integer.
    A value outside it is an error, it does not wrap. *)
Definition INT4_MIN : Z := -2147483648.
Definition INT4_MAX : Z := 2147483647.

Definition int4 (z : Z) : bool := (INT4_MIN <=? z) && (z <=? INT4_MAX).

(** [VARCHAR(n)] counts characters. Strings are UTF-8 byte strings here, and
    a character is every byte that is not a continuation byte [10xxxxxx]. *)
Definition continuation (c : ascii) : bool :=
  N.eqb (N.land (N_of_ascii c) 192) 128.

Fixpoint char_length (s : string) : Z :=
  match s with
  | EmptyString => 0
  | String c s' => (if continuation c then 0 else 1) + char_length s'
  end.

(** Columns, for [RETURNING] and [SELECT] lists. *)
Inductive Column : Type :=
| c_id | c_email | c_username | c_password | c_points | c_created_at.

Definition column_name (c : Column) : string :=
  match c with
  | c_id => "id"
  | c_email => "email"
  | c_username => "username"
  | c_password => "password"
  | c_points => "points"
  | c_created_at => "created_at"
  end.

Definition column_value (c : Column) (r : users.row) : Json :=
  match c with
  | c_id => JNum (users.id r)
  | c_email => JStr (users.email r)
  | c_username => JStr (users.username r)
  | c_password => JStr (users.password r)
  | c_points => match users.points r with Some p => JNum p | None => JNull end
  | c_created_at => JNum (users.created_at r)
  end.

(** The object the driver builds for one result row. *)
Definition project (cols : list Column) (r : users.row) : Json :=
  JObj (map (fun c => (column_name c, column_value c r)) cols).

(** Errors of the store, with the text PostgreSQL gives them. *)
Definition dquote : string := String (ascii_of_nat 34) EmptyString.

Definition quoted (s : string) : string := dquote ++ s ++ dquote.

Definition decimal (z : Z) : string := NilZero.string_of_int (Z.to_int z).

Definition unique_violation (constraint : string) : JsError :=
  mkError ("duplicate key value violates unique constraint " ++ quoted constraint).

Definition not_null_violation (column : string) : JsError :=
  mkError ("null value in column " ++ quoted column
           ++ " of relation " ++ quoted "users" ++ " violates not-null constraint").

Definition value_too_long (n : Z) : JsError :=
  mkError ("value too long for type character varying(" ++ decimal n ++ ")").

Definition sequence_exhausted : JsError :=
  mkError ("nextval: reached maximum value of sequence " ++ quoted "users_id_seq"
           ++ " (" ++ decimal INT4_MAX ++ ")").

(** The text is the one for a number the driver sends in decimal digits;
    JavaScript prints a number from 10^21 on with an exponent, which the store
    refuses as well, with another text. *)
Definition parameter_out_of_range (z : Z) : JsError :=
  mkError ("value " ++ quoted (decimal z) ++ " is out of range for type integer").

Definition integer_out_of_range : JsError :=
  mkError "integer out of range".

Definition invalid_byte_sequence : JsError :=
  mkError ("invalid byte sequence for encoding " ++ quoted "UTF8" ++ ": 0x00").

(** ** The statements of [server.js]

    Every statement is one function on the store. Its arguments are the
    parameters [$1], [$2], ... as the driver sends them: [None] is what
    [undefined] and [null] become, SQL's NULL. A statement that fails leaves
    the rows as they were. *)

(** A text parameter cannot hold the character U+0000, the byte 0 of its
    UTF-8 encoding: the store refuses it when the parameter is bound, before
    the statement runs. *)
Fixpoint has_nul (s : string) : bool :=
  match s with
  | EmptyString => false
  | String c s' => N.eqb (N_of_ascii c) 0 || has_nul s'
  end.

Definition bind_text (v : option string) : option JsError :=
  match v with
  | Some s => if has_nul s then Some invalid_byte_sequence else None
  | None => None
  end.

(** A text that the column [VARCHAR(n)] stores as it is sent. *)
Definition text_ok (n : Z) (s : string) : bool :=
  negb (has_nul s) && (char_length s <=? n).

Definition varchar_fits (n : Z) (v : option string) : bool :=
  match v with
  | Some s => char_length s <=? n
  | None => true
  end.

Definition returning (cols : list Column) (rs : list users.row) : list Json :=
  map (project cols) rs.

(** [INSERT INTO users (email, username, password) VALUES ($1, $2, $3)
     RETURNING id, email, username, points].

    The parameters are bound first: one that holds U+0000 is refused. The
    values are then coerced to their [VARCHAR(n)]: one that is too long is
    refused (PostgreSQL keeps the first [n] characters instead when the
    excess is spaces only, which is not modelled). Up to here the sequence
    is not asked. The new row then takes [id] from
    [nextval('users_id_seq')], [points] from its default 0 and [created_at]
    from the clock, and is checked against [NOT NULL], then against the
    unique indexes (primary key, [email], [username]); a value the sequence
    has handed out is not given back when one of these checks fails. *)
Definition insert_row (now : Z) (db : Store) (e u p : option string)
  : Outcome (list Json) * Store :=
  let new_id := users_id_seq db in
  if INT4_MAX <? new_id then (Rejected sequence_exhausted, db)
  else
    let db1 := {| rows := rows db; users_id_seq := new_id + 1 |} in
    match e, u, p with
    | None, _, _ => (Rejected (not_null_violation "email"), db1)
    | _, None, _ => (Rejected (not_null_violation "username"), db1)
    | _, _, None => (Rejected (not_null_violation "password"), db1)
    | Some e, Some u, Some p =>
        if existsb (fun r => users.id r =? new_id) (rows db)
        then (Rejected (unique_violation "users_pkey"), db1)
        else if existsb (fun r => String.eqb (users.email r) e) (rows db)
        then (Rejected (unique_violation "users_email_key"), db1)
        else if existsb (fun r => String.eqb (users.username r) u) (rows db)
        then (Rejected (unique_violation "users_username_key"), db1)
        else
          let r := {| users.id := new_id; users.email := e;
                      users.username := u; users.password := p;
                      users.points := Some 0; users.created_at := now |} in
          (Resolved (returning [c_id; c_email; c_username; c_points] [r]),
           {| rows := rows db ++ [r]; users_id_seq := new_id + 1 |})
    end.

Definition insert_user (now : Z) (db : Store) (e u p : option string)
  : Outcome (list Json) * Store :=
  match bind_text e, bind_text u, bind_text p with
  | Some err, _, _ => (Rejected err, db)
  | None, Some err, _ => (Rejected err, db)
  | None, None, Some err => (Rejected err, db)
  | None, None, None =>
      if negb (varchar_fits 255 e) then (Rejected (value_too_long 255), db)
      else if negb (varchar_fits 100 u) then (Rejected (value_too_long 100), db)
      else if negb (varchar_fits 255 p) then (Rejected (value_too_long 255), db)
      else insert_row now db e u p
  end.

(** [SELECT * FROM users WHERE username = $1]. The handler reads the columns
    of the row it gets, so the rows are returned whole. A username that
    holds U+0000 is refused when it is bound; [username = NULL] is true of
    no row. *)
Definition select_by_username (db : Store) (u : option string)
  : Outcome (list users.row) * Store :=
  match bind_text u with
  | Some err => (Rejected err, db)
  | None =>
      match u with
      | None => (Resolved [], db)
      | Some u =>
          (Resolved (filter (fun r => String.eqb (users.username r) u) (rows db)), db)
      end
  end.

(** Binding an [INTEGER] parameter: NULL or a value in range is accepted,
    any other value is an error before the statement runs. *)
Definition bind_int4 (v : option Z) : option JsError :=
  match v with
  | Some z => if int4 z then None else Some (parameter_out_of_range z)
  | None => None
  end.

Definition matches_id (uid : option Z) (r : users.row) : bool :=
  match uid with
  | Some i => users.id r =? i
  | None => false
  end.

Definition set_points (v : option Z) (r : users.row) : users.row :=
  {| users.id := users.id r; users.email := users.email r;
     users.username := users.username r; users.password := users.password r;
     users.points := v; users.created_at := users.created_at r |}.

(** [points + $1] on one row: NULL when either side is, an error out of
    [INTEGER]'s range. *)
Definition add_to_points (delta : option Z) (r : users.row) : option users.row :=
  match users.points r, delta with
  | Some p, Some d =>
      if int4 (p + d) then Some (set_points (Some (p + d)) r) else None
  | _, _ => Some (set_points None r)
  end.

(** The rows after the update, or [None] when one of the updated rows
    overflows; the second component lists the updated rows. *)
Fixpoint update_rows (delta uid : option Z) (rs : list users.row)
  : option (list users.row * list users.row) :=
  match rs with
  | [] => Some ([], [])
  | r :: rest =>
      match update_rows delta uid rest with
      | None => None
      | Some (rest', hit) =>
          if matches_id uid r
          then match add_to_points delta r with
               | Some r' => Some (r' :: rest', r' :: hit)
               | None => None
               end
          else Some (r :: rest', hit)
      end
  end.

(** [UPDATE users SET points = points + $1 WHERE id = $2
     RETURNING id, username, points]. *)
Definition update_points (db : Store) (delta uid : option Z)
  : Outcome (list Json) * Store :=
  match bind_int4 delta, bind_int4 uid with
  | Some err, _ => (Rejected err, db)
  | None, Some err => (Rejected err, db)
  | None, None =>
      match update_rows delta uid (rows db) with
      | None => (Rejected integer_out_of_range, db)
      | Some (rs, hit) =>
          (Resolved (returning [c_id; c_username; c_points] hit),
           {| rows := rs; users_id_seq := users_id_seq db |})
      end
  end.

(** [SELECT id, email, username, points FROM users WHERE id = $1]. *)
Definition select_by_id (db : Store) (uid : option Z)
  : Outcome (list Json) * Store :=
  match bind_int4 uid with
  | Some err => (Rejected err, db)
  | None =>
      (Resolved (returning [c_id; c_email; c_username; c_points]
                   (filter (matches_id uid) (rows db))), db)
  end.

(** ** bcrypt

    The library's primitives are an interface: [crypt] is the salted hash of
    a password at a cost, [checkpw] the comparison of a password with a
    stored hash. What [server.js] relies on of their JavaScript wrappers is
    written out: [bcrypt.hash] and [bcrypt.compare] reject when the data is
    [undefined] or [null]. *)
Class Bcrypt : Type := {
  crypt : string -> Z -> string -> string;   (* password, rounds, salt *)
  checkpw : string -> string -> bool         (* password, stored hash *)
}.

Definition bcrypt_hash {B : Bcrypt} (salt : string) (data : option string) (rounds : Z)
  : Outcome string :=
  match data with
  | None => Rejected (mkError "data and salt arguments required")
  | Some pw => Resolved (crypt pw rounds salt)
  end.

Definition bcrypt_compare {B : Bcrypt} (data : option string) (hash : string)
  : Outcome bool :=
  match data with
  | None => Rejected (mkError "data and hash arguments required")
  | Some pw => Resolved (checkpw pw hash)
  end.

(** ** Asynchronous handlers

    What a handler awaits: the four statements sent through [pool.query] and
    the two bcrypt calls. *)
Inductive Op : Type -> Type :=
| BcryptHash (data : option string) (rounds : Z) : Op string
| BcryptCompare (data : option string) (hash : string) : Op bool
| InsertUser (e u p : option string) : Op (list Json)
| SelectByUsername (u : option string) : Op (list users.row)
| UpdatePoints (delta uid : option Z) : Op (list Json)
| SelectById (uid : option Z) : Op (list Json).

(** An [async] function body: it returns, or awaits an operation and goes on
    with the outcome of its promise. *)
Inductive Async (R : Type) : Type :=
| Return (r : R)
| Await {X : Type} (op : Op X) (k : Outcome X -> Async R).
Arguments Return {R} r.
Arguments Await {R X} op k.

(** Inside a [try] block a rejected [await] throws: the rest of the block is
    skipped. A block is a program whose result is the value the block ends
    with or the error thrown in it. *)
Definition Try (A : Type) : Type := Async (Outcome A).

Definition await {X : Type} (op : Op X) : Try X :=
  Await op (fun o => Return o).

Definition done {A : Type} (a : A) : Try A := Return (Resolved a).

Fixpoint then_ {A B : Type} (m : Try A) (f : A -> Try B) : Try B :=
  match m with
  | Return (Resolved a) => f a
  | Return (Rejected err) => Return (Rejected err)
  | Await op k => Await op (fun o => then_ (k o) f)
  end.

Fixpoint try_catch {A : Type} (block : Try A) (handler : JsError -> A) : Async A :=
  match block with
  | Return (Resolved a) => Return a
  | Return (Rejected err) => Return (handler err)
  | Await op k => Await op (fun o => try_catch (k o) handler)
  end.

Notation "x <- m ;; f" := (then_ m (fun x => f))
  (at level 100, m at next level, right associativity).

(** Request bodies, [req.body] after [express.json()]: text fields hold
    strings and numeric fields integers, and a field that is absent is
    [None]. *)
Record RegisterBody : Type := { reg_email : option string;
                                reg_username : option string;
                                reg_password : option string }.

Record LoginBody : Type := { login_username : option string;
                             login_password : option string }.

Record AddPointsBody : Type := { add_userId : option Z;
                                 add_points : option Z }.

Definition failure (msg : string) : Json :=
  JObj [("success", JBool false); ("message", JStr msg)].

Definition success (user : option Json) : Json :=
  JObj (("success", JBool true) :: optional_field "user" user).

(** [app.post('/api/register', ...)] *)
Definition register (req : RegisterBody) : Async Response :=
  try_catch
    (hashedPassword <- await (BcryptHash (reg_password req) 10) ;;
     result <- await (InsertUser (reg_email req) (reg_username req)
                                 (Some hashedPassword)) ;;
     done (res_json (success (hd_error result))))
    (fun err => res_status_json 400 (failure (message err))).

(** [app.post('/api/login', ...)] *)
Definition login (req : LoginBody) : Async Response :=
  try_catch
    (result <- await (SelectByUsername (login_username req)) ;;
     match result with
     | [] => done (res_status_json 401 (failure msg_login))
     | user :: _ =>
         validPassword <- await (BcryptCompare (login_password req)
                                               (users.password user)) ;;
         if negb validPassword
         then done (res_status_json 401 (failure msg_login))
         else done (res_json (JObj [("success", JBool true);
                                    ("user", JObj [("id", column_value c_id user);
                                                   ("email", column_value c_email user);
                                                   ("username", column_value c_username user);
                                                   ("points", column_value c_points user)])]))
     end)
    (fun err => res_status_json 500 (failure (message err))).

(** [app.post('/api/add-points', ...)] *)
Definition addPoints (req : AddPointsBody) : Async Response :=
  try_catch
    (result <- await (UpdatePoints (add_points req) (add_userId req)) ;;
     match result with
     | [] => done (res_status_json 404 (failure msg_missing))
     | _ :: _ => done (res_json (success (hd_error result)))
     end)
    (fun err => res_status_json 500 (failure (message err))).

(** [app.get('/api/user/:userId', ...)]; [userId] is the number the path
    segment denotes. *)
Definition getUser (userId : Z) : Async Response :=
  try_catch
    (result <- await (SelectById (Some userId)) ;;
     match result with
     | [] => done (res_status_json 404 (failure msg_missing))
     | _ :: _ => done (res_json (success (hd_error result)))
     end)
    (fun err => res_status_json 500 (failure (message err))).

(** ** Running handlers

    An interpreter gives every awaited operation its outcome and the state
    after it. *)
Definition Interp (S : Type) : Type := forall X : Type, Op X -> S -> Outcome X * S.

Fixpoint run {S R : Type} (I : Interp S) (m : Async R) (s : S) : R * S :=
  match m with
  | Return r => (r, s)
  | Await op k => let (o, s') := I _ op s in run I (k o) s'
  end.

(** What a request finds around it: the clock and the salt bcrypt draws. *)
Record Env : Type := { now : Z; salt : string }.

(** The interpreter of [server.js]: the statements act on the store, the
    bcrypt calls do not touch it. *)
Definition pg {B : Bcrypt} (env : Env) : Interp Store :=
  fun X op =>
    match op in Op X return Store -> Outcome X * Store with
    | BcryptHash data rounds => fun db => (bcrypt_hash (salt env) data rounds, db)
    | BcryptCompare data hash => fun db => (bcrypt_compare data hash, db)
    | InsertUser e u p => fun db => insert_user (now env) db e u p
    | SelectByUsername u => fun db => select_by_username db u
    | UpdatePoints delta uid => fun db => update_points db delta uid
    | SelectById uid => fun db => select_by_id db uid
    end.

(** One awaited operation of a handler: the program that goes on with the
    outcome, and the state after the operation. *)
Definition advance {S R : Type} (I : Interp S) (m : Async R) (s : S)
  : option (Async R * S) :=
  match m with
  | Return _ => None
  | Await op k => let (o, s') := I _ op s in Some (k o, s')
  end.

(** Requests in flight: one step runs one awaited operation of one of them;
    what lies between two [await]s of a handler is not interrupted, and a
    statement is one operation. *)
Inductive step {B : Bcrypt}
  : Store * list (Async Response) -> Store * list (Async Response) -> Prop :=
| step_await : forall env db db' before m m' after,
    advance (pg env) m db = Some (m', db') ->
    step (db, (before ++ m :: after)%list) (db', (before ++ m' :: after)%list).

Inductive steps {B : Bcrypt}
  : Store * list (Async Response) -> Store * list (Async Response) -> Prop :=
| steps_refl : forall st, steps st st
| steps_next : forall st1 st2 st3, step st1 st2 -> steps st2 st3 -> steps st1 st3.

Definition finished (m : Async Response) : bool :=
  match m with
  | Return _ => true
  | Await _ _ => false
  end.

(** The requests of a pool that have been answered. *)
Definition finished_count (pool : list (Async Response)) : Z :=
  Z.of_nat (List.length (filter finished pool)).

(** [addPoints] with delta 1 for the user [uid]. *)
Definition increment (uid : Z) : Async Response :=
  addPoints {| add_userId := Some uid; add_points := Some 1 |}.

(** The sequential reading of a handler: one request served on its own. *)
Definition serve {B : Bcrypt} (env : Env) (m : Async Response) (db : Store)
  : Response * Store :=
  run (pg env) m db.

(** ** The invariant of the store

    What the table's constraints and the statements above keep true of every
    store the handlers reach from the empty table. *)
Fixpoint unique {K : Type} (eqb : K -> K -> bool) (key : users.row -> K)
  (rs : list users.row) : bool :=
  match rs with
  | [] => true
  | r :: rest =>
      negb (existsb (fun r' => eqb (key r') (key r)) rest) && unique eqb key rest
  end.

Definition row_ok (seq : Z) (r : users.row) : bool :=
  (1 <=? users.id r)
  && (users.id r <? seq)
  && (char_length (users.email r) <=? 255)
  && (char_length (users.username r) <=? 100)
  && (char_length (users.password r) <=? 255)
  && match users.points r with Some p => int4 p | None => true end.

Definition wf_store (db : Store) : bool :=
  (1 <=? users_id_seq db)
  && (users_id_seq db <=? INT4_MAX + 1)
  && forallb (row_ok (users_id_seq db)) (rows db)
  && unique Z.eqb users.id (rows db)
  && unique String.eqb users.email (rows db)
  && unique String.eqb users.username (rows db).

(** The row of a user, by primary key and by name. *)
Definition find_user (db : Store) (uid : Z) : option users.row :=
  find (fun r => users.id r =? uid) (rows db).

Definition find_username (db : Store) (u : string) : option users.row :=
  find (fun r => String.eqb (users.username r) u) (rows db).

(** The points of a user, as [GET /api/user/:userId] would show them. *)
Definition points_of (db : Store) (uid : Z) : option (option Z) :=
  option_map users.points (find_user db uid).

Definition email_taken (db : Store) (e : string) : bool :=
  existsb (fun r => String.eqb (users.email r) e) (rows db).

Definition username_taken (db : Store) (u : string) : bool :=
  existsb (fun r => String.eqb (users.username r) u) (rows db).

(** The payload of a successful login for the row [user]. *)
Definition login_user (user : users.row) : Json :=
  JObj [("success", JBool true);
        ("user", JObj [("id", JNum (users.id user));
                       ("email", JStr (users.email user));
                       ("username", JStr (users.username user));
                       ("points", column_value c_points user)])].

(** A small instance of the bcrypt interface, to evaluate the handlers on
    concrete requests: the hash is the salt, a separator and the password,
    and a password is checked against what follows the salt. *)
Definition after_salt (hash : string) : string :=
  substring 3 (String.length hash - 3) hash.

Definition demo_bcrypt : Bcrypt :=
  {| crypt := fun pw _ salt => substring 0 2 (salt ++ "..") ++ "$" ++ pw;
     checkpw := fun pw hash => String.eqb (after_salt hash) pw |}.

Definition demo_env : Env := {| now := 1700000000; salt := "N9" |}.

(** The scenario of the specification: the store after registering
    [{email: "a@x.com", username: "alice", password: "secret"}]. *)
Definition alice_body : RegisterBody :=
  {| reg_email := Some "a@x.com"; reg_username := Some "alice";
     reg_password := Some "secret" |}.

Definition alice_row : users.row :=
  {| users.id := 1; users.email := "a@x.com"; users.username := "alice";
     users.password := "N9$secret"; users.points := Some 0;
     users.created_at := 1700000000 |}.

Definition alice_store : Store := {| rows := [alice_row]; users_id_seq := 2 |}.


(** The user object of a response to [register] and [getUser]. *)
Definition user_json (i : Z) (e u : string) (p : Z) : Json :=
  JObj [("id", JNum i); ("email", JStr e); ("username", JStr u); ("points", JNum p)].

(** The user object of a response to [addPoints]. *)
Definition points_json (i : Z) (u : string) (p : Z) : Json :=
  JObj [("id", JNum i); ("username", JStr u); ("points", JNum p)].

(** What holds of a pool of [n] increments of the user [uid], named [name],
    while they are served: each request is still to run or answered with
    success, and the user has as many points as requests were answered. *)
Definition counting (uid : Z) (name : string) (n : nat)
  (st : Store * list (Async Response)) : Prop :=
  wf_store (fst st) = true
  /\ List.length (snd st) = n
  /\ Forall (fun m => m = increment uid
                      \/ exists p, m = Return (res_json (success (Some (points_json uid name p)))))
            (snd st)
  /\ exists r, find_user (fst st) uid = Some r
               /\ users.username r = name
               /\ users.points r = Some (finished_count (snd st)).

(** ** The routes

    The four routes [server.js] registers on [app], as the requests they
    accept, and the service as it answers requests one after the other. *)
Inductive Request : Type :=
| POST_register (body : RegisterBody)
| POST_login (body : LoginBody)
| POST_add_points (body : AddPointsBody)
| GET_user (userId : Z).

Definition handler (req : Request) : Async Response :=
  match req with
  | POST_register body => register body
  | POST_login body => login body
  | POST_add_points body => addPoints body
  | GET_user userId => getUser userId
  end.

Fixpoint serve_all {B : Bcrypt} (reqs : list (Env * Request)) (db : Store)
  : list Response * Store :=
  match reqs with
  | [] => ([], db)
  | (env, req) :: rest =>
      let (resp, db1) := serve env (handler req) db in
      let (resps, db2) := serve_all rest db1 in
      (resp :: resps, db2)
  end.

(** The envelope of a response: status 200 with [success: true], or one of
    the failure statuses of the route with [{success: false, message}]. *)
Definition envelope_ok (failures : list Z) (r : Response) : Prop :=
  (status r = 200 /\ field "success" (body r) = Some (JBool true))
  \/ (In (status r) failures /\ exists msg, body r = failure msg).

(** [register] after its first [await]: what is left of the handler once
    [bcrypt.hash] has resolved to [hashed]. *)
Definition register_hashed (req : RegisterBody) (hashed : string) : Async Response :=
  try_catch
    (result <- await (InsertUser (reg_email req) (reg_username req)
                                 (Some hashed)) ;;
     done (res_json (success (hd_error result))))
    (fun err => res_status_json 400 (failure (message err))).

(** A request of a pool that is a registration with the email [e], at any
    point of its handler. *)
Definition registering (e : string) (m : Async Response) : Prop :=
  (exists req, reg_email req = Some e
               /\ (m = register req \/ exists hashed, m = register_hashed req hashed))
  \/ exists resp, m = Return resp.

Definition answered_ok (m : Async Response) : bool :=
  match m with
  | Return r => status r =? 200
  | Await _ _ => false
  end.

(** The requests of a pool answered with status 200, and the records of a
    store that carry the email [e]. *)
Definition successes (pool : list (Async Response)) : nat :=
  List.length (filter answered_ok pool).

Definition with_email (e : string) (db : Store) : nat :=
  List.length (filter (fun r => String.eqb (users.email r) e) (rows db)).

(** Deltas that can be added one after the other to [p] points: each delta
    and each running total is an [INTEGER]. *)
Fixpoint in_range_from (p : Z) (deltas : list Z) : bool :=
  match deltas with
  | [] => true
  | d :: rest => int4 d && int4 (p + d) && in_range_from (p + d) rest
  end.

Definition add_points_requests (env : Env) (uid : Z) (deltas : list Z)
  : list (Env * Request) :=
  map (fun d => (env, POST_add_points {| add_userId := Some uid;
                                         add_points := Some d |})) deltas.

(** The balances after each of the deltas, starting from [p]. *)
Fixpoint running_totals (p : Z) (deltas : list Z) : list Z :=
  match deltas with
  | [] => []
  | d :: rest => (p + d) :: running_totals (p + d) rest
  end.

(** Two versions of a row that differ at most in their points. *)
Definition same_identity (r r' : users.row) : Prop :=
  users.id r' = users.id r
  /\ users.email r' = users.email r
  /\ users.username r' = users.username r
  /\ users.password r' = users.password r
  /\ users.created_at r' = users.created_at r.

(** [grows rs rs']: the rows [rs] are all in [rs'], in place and with their
    identity, possibly followed by new rows. *)
Inductive grows : list users.row -> list users.row -> Prop :=
| grows_new : forall added, grows [] added
| grows_row : forall r r' rs rs',
    same_identity r r' -> grows rs rs' -> grows (r :: rs) (r' :: rs').

(** * Properties *)

(** ** Handlers served on their own: what [serve] computes *)

Section Served.
Context {B : Bcrypt}.
Variable env : Env.

Lemma serve_register : forall req db,
    serve env (register req) db =
    match bcrypt_hash (salt env) (reg_password req) 10 with
    | Rejected err => (res_status_json 400 (failure (message err)), db)
    | Resolved hashed =>
        match insert_user (now env) db (reg_email req) (reg_username req) (Some hashed) with
        | (Rejected err, db') => (res_status_json 400 (failure (message err)), db')
        | (Resolved result, db') => (res_json (success (hd_error result)), db')
        end
    end.
  Proof.
    intros req db. unfold serve, register. cbn.
    destruct (bcrypt_hash (salt env) (reg_password req) 10) as [hashed|err]; cbn;
      [|reflexivity].
    destruct (insert_user (now env) db (reg_email req) (reg_username req) (Some hashed))
      as [[result|err] db']; reflexivity.
  Qed.

Lemma serve_login : forall req db,
    serve env (login req) db =
    match login_username req with
    | None => (res_status_json 401 (failure msg_login), db)
    | Some u =>
        if has_nul u
        then (res_status_json 500 (failure (message invalid_byte_sequence)), db)
        else
          match find_username db u with
          | None => (res_status_json 401 (failure msg_login), db)
          | Some user =>
              match bcrypt_compare (login_password req) (users.password user) with
              | Rejected err => (res_status_json 500 (failure (message err)), db)
              | Resolved true => (res_json (login_user user), db)
              | Resolved false => (res_status_json 401 (failure msg_login), db)
              end
          end
    end.
  Proof.
    intros [u p] db. unfold serve, login, find_username. cbn.
    destruct u as [u|]; cbn; [|reflexivity].
    unfold select_by_username, bind_text.
    destruct (has_nul u); [reflexivity|].
    induction (rows db) as [|r rs IH]; cbn; [reflexivity|].
    destruct (String.eqb (users.username r) u); cbn; [|exact IH].
    destruct (bcrypt_compare p (users.password r)) as [[|]|err]; reflexivity.
  Qed.

Lemma serve_addPoints : forall req db,
    serve env (addPoints req) db =
    match update_points db (add_points req) (add_userId req) with
    | (Rejected err, db') => (res_status_json 500 (failure (message err)), db')
    | (Resolved [], db') => (res_status_json 404 (failure msg_missing), db')
    | (Resolved (user :: _), db') => (res_json (success (Some user)), db')
    end.
  Proof.
    intros req db. unfold serve, addPoints. cbn.
    destruct (update_points db (add_points req) (add_userId req))
      as [[[|user rest]|err] db']; reflexivity.
  Qed.

Lemma serve_getUser : forall userId db,
    serve env (getUser userId) db =
    match select_by_id db (Some userId) with
    | (Rejected err, db') => (res_status_json 500 (failure (message err)), db')
    | (Resolved [], db') => (res_status_json 404 (failure msg_missing), db')
    | (Resolved (user :: _), db') => (res_json (success (Some user)), db')
    end.
  Proof.
    intros userId db. unfold serve, getUser. cbn.
    destruct (select_by_id db (Some userId)) as [[[|user rest]|err] db']; reflexivity.
  Qed.
End Served.

(** ** Keys *)

Section Keys.
Context {K : Type} (eqb : K -> K -> bool) (key : users.row -> K).
Hypothesis eqb_spec : forall a b, eqb a b = true <-> a = b.

Lemma eqb_swap : forall a b, eqb a b = eqb b a.
  Proof.
    intros a b. destruct (eqb a b) eqn:E1, (eqb b a) eqn:E2; try reflexivity.
    - apply eqb_spec in E1. subst. rewrite (proj2 (eqb_spec b b) eq_refl) in E2.
      discriminate.
    - apply eqb_spec in E2. subst. rewrite (proj2 (eqb_spec a a) eq_refl) in E1.
      discriminate.
  Qed.

Lemma existsb_key_app : forall k rs r,
    existsb (fun r' => eqb (key r') k) (rs ++ [r])
    = existsb (fun r' => eqb (key r') k) rs || eqb (key r) k.
  Proof.
    intros k rs r. rewrite existsb_app. cbn. rewrite orb_false_r. reflexivity.
  Qed.

Lemma unique_app_one : forall rs r,
    unique eqb key (rs ++ [r])
    = unique eqb key rs && negb (existsb (fun r' => eqb (key r') (key r)) rs).
  Proof.
    induction rs as [|a rs IH]; intros r; cbn.
    - reflexivity.
    - rewrite existsb_key_app, IH, (eqb_swap (key r) (key a)).
      destruct (existsb (fun r' => eqb (key r') (key a)) rs),
               (eqb (key a) (key r)),
               (unique eqb key rs),
               (existsb (fun r' => eqb (key r') (key r)) rs); reflexivity.
  Qed.

Lemma existsb_same_keys : forall k rs rs',
    map key rs = map key rs' ->
    existsb (fun r' => eqb (key r') k) rs = existsb (fun r' => eqb (key r') k) rs'.
  Proof.
    intros k. induction rs as [|a rs IH]; intros [|a' rs'] E; cbn in *;
      try discriminate; [reflexivity|].
    injection E as Ea Ers. rewrite Ea, (IH _ Ers). reflexivity.
  Qed.

Lemma unique_same_keys : forall rs rs',
    map key rs = map key rs' -> unique eqb key rs = unique eqb key rs'.
  Proof.
    induction rs as [|a rs IH]; intros [|a' rs'] E; cbn in *;
      try discriminate; [reflexivity|].
    injection E as Ea Ers.
    rewrite Ea, (IH _ Ers), (existsb_same_keys _ _ _ Ers). reflexivity.
  Qed.

Lemma existsb_key_false : forall k rs,
    existsb (fun r' => eqb (key r') k) rs = false ->
    forall r, In r rs -> key r <> k.
  Proof.
    intros k rs E r Hin Hk.
    assert (existsb (fun r' => eqb (key r') k) rs = true) as E'.
    { apply existsb_exists. exists r. split; [exact Hin|]. apply eqb_spec, Hk. }
    congruence.
  Qed.

  (** Under uniqueness, looking a key up finds the one row that carries it. *)
Lemma find_unique : forall rs r,
    unique eqb key rs = true -> In r rs ->
    find (fun r' => eqb (key r') (key r)) rs = Some r.
  Proof.
    induction rs as [|a rs IH]; intros r U Hin; cbn in *; [contradiction|].
    apply andb_true_iff in U as [Ua Urs].
    destruct Hin as [->|Hin].
    - rewrite (proj2 (eqb_spec (key r) (key r)) eq_refl). reflexivity.
    - apply negb_true_iff in Ua.
      destruct (eqb (key a) (key r)) eqn:E.
      + apply eqb_spec in E.
        exfalso. exact (existsb_key_false _ _ Ua r Hin (eq_sym E)).
      + apply IH; assumption.
  Qed.

Lemma find_key_some : forall k rs r,
    find (fun r' => eqb (key r') k) rs = Some r -> In r rs /\ key r = k.
  Proof.
    intros k rs r E. apply find_some in E as [Hin E].
    split; [exact Hin|]. apply eqb_spec, E.
  Qed.

Lemma find_key_none : forall k rs,
    find (fun r' => eqb (key r') k) rs = None <->
    existsb (fun r' => eqb (key r') k) rs = false.
  Proof.
    intros k. induction rs as [|a rs IH]; cbn; [tauto|].
    destruct (eqb (key a) k); cbn; [split; discriminate|exact IH].
  Qed.
End Keys.

(** ** The statements and the invariant *)

Lemma Z_eqb_spec : forall a b : Z, (a =? b) = true <-> a = b.
Proof. intros a b. apply Z.eqb_eq. Qed.

Lemma string_eqb_spec : forall a b : string, String.eqb a b = true <-> a = b.
Proof. intros a b. apply String.eqb_eq. Qed.

Lemma int4_true : forall z, int4 z = true <-> INT4_MIN <= z <= INT4_MAX.
Proof.
  intros z. unfold int4. rewrite andb_true_iff, !Z.leb_le. tauto.
Qed.

Lemma row_ok_elim : forall seq r,
  row_ok seq r = true ->
  1 <= users.id r < seq
  /\ char_length (users.email r) <= 255
  /\ char_length (users.username r) <= 100
  /\ char_length (users.password r) <= 255
  /\ (forall p, users.points r = Some p -> int4 p = true).
Proof.
  intros seq r Hok. unfold row_ok in Hok.
  repeat (apply andb_true_iff in Hok as [Hok ?]).
  rewrite Z.leb_le in *. rewrite Z.ltb_lt in *.
  repeat split; try assumption.
  intros p Hp. rewrite Hp in *. assumption.
Qed.

Lemma row_ok_weaken : forall seq seq' r,
  seq <= seq' -> row_ok seq r = true -> row_ok seq' r = true.
Proof.
  intros seq seq' r Hle Hok. unfold row_ok in *.
  repeat (apply andb_true_iff in Hok as [Hok ?]).
  repeat (apply andb_true_iff; split); try assumption.
  rewrite Z.ltb_lt in *. lia.
Qed.

Lemma wf_store_elim : forall db,
  wf_store db = true ->
  1 <= users_id_seq db <= INT4_MAX + 1
  /\ forallb (row_ok (users_id_seq db)) (rows db) = true
  /\ unique Z.eqb users.id (rows db) = true
  /\ unique String.eqb users.email (rows db) = true
  /\ unique String.eqb users.username (rows db) = true.
Proof.
  intros db Hwf. unfold wf_store in Hwf.
  repeat (apply andb_true_iff in Hwf as [Hwf ?]).
  rewrite !Z.leb_le in *. repeat split; assumption.
Qed.

Lemma wf_store_intro : forall db,
  1 <= users_id_seq db <= INT4_MAX + 1 ->
  forallb (row_ok (users_id_seq db)) (rows db) = true ->
  unique Z.eqb users.id (rows db) = true ->
  unique String.eqb users.email (rows db) = true ->
  unique String.eqb users.username (rows db) = true ->
  wf_store db = true.
Proof.
  intros db [H1 H2] Hr Hi He Hu. unfold wf_store.
  rewrite Hr, Hi, He, Hu.
  rewrite (proj2 (Z.leb_le _ _) H1), (proj2 (Z.leb_le _ _) H2). reflexivity.
Qed.

Lemma wf_row : forall db r,
  wf_store db = true -> In r (rows db) -> row_ok (users_id_seq db) r = true.
Proof.
  intros db r Hwf Hin. apply wf_store_elim in Hwf as (_ & Hrows & _).
  rewrite forallb_forall in Hrows. apply Hrows, Hin.
Qed.

(** Ids in a well-formed store are below the sequence: the next id is fresh. *)
Lemma wf_next_id_fresh : forall db,
  wf_store db = true ->
  existsb (fun r => users.id r =? users_id_seq db) (rows db) = false.
Proof.
  intros db Hwf.
  destruct (existsb _ (rows db)) eqn:E; [|reflexivity].
  apply existsb_exists in E as (r & Hin & Hid).
  apply Z.eqb_eq in Hid.
  pose proof (row_ok_elim _ _ (wf_row _ _ Hwf Hin)) as (Hlt & _). lia.
Qed.

Lemma wf_empty_store : wf_store empty_store = true.
Proof. reflexivity. Qed.

(** *** [INSERT] *)

Lemma insert_user_rejected : forall now db e u p err db',
  insert_user now db e u p = (Rejected err, db') -> rows db' = rows db.
Proof.
  intros now db e u p err db' E. unfold insert_user, insert_row in E.
  repeat match type of E with
         | (if ?c then _ else _) = _ => destruct c
         | match ?x with _ => _ end = _ => destruct x
         end;
    inversion E; reflexivity.
Qed.

Lemma text_ok_elim : forall n s,
  text_ok n s = true -> has_nul s = false /\ char_length s <= n.
Proof.
  intros n s H. unfold text_ok in H. apply andb_true_iff in H as [Hn Hl].
  apply negb_true_iff in Hn. apply Z.leb_le in Hl. auto.
Qed.

Lemma insert_user_resolved : forall now db e u p,
  users_id_seq db <= INT4_MAX ->
  text_ok 255 e = true -> text_ok 100 u = true -> text_ok 255 p = true ->
  existsb (fun r => users.id r =? users_id_seq db) (rows db) = false ->
  email_taken db e = false -> username_taken db u = false ->
  let r := {| users.id := users_id_seq db; users.email := e;
              users.username := u; users.password := p;
              users.points := Some 0; users.created_at := now |} in
  insert_user now db (Some e) (Some u) (Some p)
  = (Resolved [project [c_id; c_email; c_username; c_points] r],
     {| rows := rows db ++ [r]; users_id_seq := users_id_seq db + 1 |}).
Proof.
  intros now db e u p Hseq He Hu Hp Hid Hemail Huser r.
  destruct (text_ok_elim _ _ He) as [Ne Le].
  destruct (text_ok_elim _ _ Hu) as [Nu Lu].
  destruct (text_ok_elim _ _ Hp) as [Np Lp].
  unfold insert_user, insert_row, bind_text, email_taken, username_taken in *. cbn.
  rewrite Ne, Nu, Np.
  rewrite (proj2 (Z.leb_le _ _) Le), (proj2 (Z.leb_le _ _) Lu),
          (proj2 (Z.leb_le _ _) Lp). cbn.
  rewrite (proj2 (Z.ltb_ge _ _) Hseq).
  rewrite Hid, Hemail, Huser. reflexivity.
Qed.

Lemma forallb_row_ok_weaken : forall seq seq' rs,
  seq <= seq' ->
  forallb (row_ok seq) rs = true -> forallb (row_ok seq') rs = true.
Proof.
  intros seq seq' rs Hle Hrs. rewrite forallb_forall in *.
  intros r Hin. apply (row_ok_weaken seq); [exact Hle|apply Hrs, Hin].
Qed.

Lemma insert_user_wf : forall now db e u p o db',
  wf_store db = true ->
  insert_user now db e u p = (o, db') -> wf_store db' = true.
Proof.
  intros now db e u p o db' Hwf E.
  pose proof (wf_store_elim _ Hwf) as (Hseq & Hrows & Hid & Hemail & Huser).
  assert (users_id_seq db <= INT4_MAX ->
          wf_store {| rows := rows db; users_id_seq := users_id_seq db + 1 |} = true)
    as Hkept.
  { intros Hmax. apply wf_store_intro; cbn; try assumption;
      [unfold INT4_MAX in *; lia|].
    apply (forallb_row_ok_weaken (users_id_seq db)); [lia|assumption]. }
  unfold insert_user in E.
  destruct (bind_text e); [inversion E; subst; exact Hwf|].
  destruct (bind_text u); [inversion E; subst; exact Hwf|].
  destruct (bind_text p); [inversion E; subst; exact Hwf|].
  destruct (varchar_fits 255 e) eqn:Fe; cbn in E; [|inversion E; subst; exact Hwf].
  destruct (varchar_fits 100 u) eqn:Fu; cbn in E; [|inversion E; subst; exact Hwf].
  destruct (varchar_fits 255 p) eqn:Fp; cbn in E; [|inversion E; subst; exact Hwf].
  unfold insert_row in E.
  destruct (INT4_MAX <? users_id_seq db) eqn:Emax.
  { inversion E; subst; exact Hwf. }
  apply Z.ltb_ge in Emax. specialize (Hkept Emax).
  destruct e as [e|]; [|inversion E; subst; exact Hkept].
  destruct u as [u|]; [|inversion E; subst; exact Hkept].
  destruct p as [p|]; [|inversion E; subst; exact Hkept].
  destruct (existsb (fun r => users.id r =? users_id_seq db) (rows db)) eqn:Ei;
    [inversion E; subst; exact Hkept|].
  destruct (existsb (fun r => String.eqb (users.email r) e) (rows db)) eqn:Ee;
    [inversion E; subst; exact Hkept|].
  destruct (existsb (fun r => String.eqb (users.username r) u) (rows db)) eqn:Eu;
    [inversion E; subst; exact Hkept|].
  inversion E; subst. cbn in Fe, Fu, Fp.
  apply wf_store_intro; cbn.
  - unfold INT4_MAX in *. lia.
  - rewrite forallb_app. apply andb_true_iff. split.
    + apply (forallb_row_ok_weaken (users_id_seq db)); [lia|assumption].
    + cbn. unfold row_ok. cbn. rewrite Fe, Fu, Fp.
      rewrite (proj2 (Z.leb_le 1 (users_id_seq db))) by lia.
      rewrite (proj2 (Z.ltb_lt (users_id_seq db) (users_id_seq db + 1))) by lia.
      reflexivity.
  - rewrite (unique_app_one Z.eqb users.id Z_eqb_spec). cbn.
    rewrite Hid, Ei. reflexivity.
  - rewrite (unique_app_one String.eqb users.email string_eqb_spec). cbn.
    rewrite Hemail, Ee. reflexivity.
  - rewrite (unique_app_one String.eqb users.username string_eqb_spec). cbn.
    rewrite Huser, Eu. reflexivity.
Qed.

(** *** [UPDATE] *)

Lemma add_to_points_same : forall delta r r',
  add_to_points delta r = Some r' ->
  users.id r' = users.id r /\ users.email r' = users.email r
  /\ users.username r' = users.username r /\ users.password r' = users.password r
  /\ users.created_at r' = users.created_at r.
Proof.
  intros delta r r' E. unfold add_to_points in E.
  destruct (users.points r) as [p|], delta as [d|];
    try destruct (int4 (p + d)); inversion E; subst; cbn; repeat split.
Qed.

Lemma add_to_points_row_ok : forall seq delta r r',
  add_to_points delta r = Some r' -> row_ok seq r = true -> row_ok seq r' = true.
Proof.
  intros seq delta r r' E Hok. unfold add_to_points in E. unfold row_ok in *.
  repeat (apply andb_true_iff in Hok as [Hok ?]).
  destruct (users.points r) as [p|], delta as [d|];
    try destruct (int4 (p + d)) eqn:Er; inversion E; subst;
    cbn [set_points users.id users.email users.username users.password
         users.points];
    try rewrite Er;
    repeat match goal with
           | Hb : ?b = true |- context [?b] => rewrite Hb
           end; reflexivity.
Qed.

Lemma update_rows_keys : forall (K : Type) (key : users.row -> K),
  (forall delta r r', add_to_points delta r = Some r' -> key r' = key r) ->
  forall delta uid rs rs' hit,
  update_rows delta uid rs = Some (rs', hit) -> map key rs' = map key rs.
Proof.
  intros K key Hkey delta uid.
  induction rs as [|a rs IH]; intros rs' hit E; cbn in E.
  - inversion E; reflexivity.
  - destruct (update_rows delta uid rs) as [[rest' hit']|]; [|discriminate].
    specialize (IH _ _ eq_refl).
    destruct (matches_id uid a).
    + destruct (add_to_points delta a) as [a'|] eqn:Ea; [|discriminate].
      inversion E; subst. cbn. rewrite IH, (Hkey _ _ _ Ea). reflexivity.
    + inversion E; subst. cbn. rewrite IH. reflexivity.
Qed.

Lemma update_rows_row_ok : forall seq delta uid rs rs' hit,
  update_rows delta uid rs = Some (rs', hit) ->
  forallb (row_ok seq) rs = true -> forallb (row_ok seq) rs' = true.
Proof.
  intros seq delta uid.
  induction rs as [|a rs IH]; intros rs' hit E Hok; cbn in E.
  - inversion E; reflexivity.
  - cbn in Hok. apply andb_true_iff in Hok as [Ha Hrs].
    destruct (update_rows delta uid rs) as [[rest' hit']|]; [|discriminate].
    specialize (IH _ _ eq_refl Hrs).
    destruct (matches_id uid a).
    + destruct (add_to_points delta a) as [a'|] eqn:Ea; [|discriminate].
      inversion E; subst. cbn.
      rewrite (add_to_points_row_ok _ _ _ _ Ea Ha), IH. reflexivity.
    + inversion E; subst. cbn. rewrite Ha, IH. reflexivity.
Qed.

Lemma update_rows_missing : forall delta uid rs,
  find (fun r => users.id r =? uid) rs = None ->
  update_rows delta (Some uid) rs = Some (rs, []).
Proof.
  intros delta uid. induction rs as [|a rs IH]; intros E; cbn in *.
  - reflexivity.
  - destruct (users.id a =? uid); [discriminate|].
    rewrite (IH E). reflexivity.
Qed.

Lemma update_rows_null : forall delta rs,
  update_rows delta None rs = Some (rs, []).
Proof.
  intros delta. induction rs as [|a rs IH]; cbn; [reflexivity|].
  rewrite IH. reflexivity.
Qed.

Lemma update_rows_found : forall delta uid rs r r',
  unique Z.eqb users.id rs = true ->
  find (fun r => users.id r =? uid) rs = Some r ->
  add_to_points delta r = Some r' ->
  exists rs', update_rows delta (Some uid) rs = Some (rs', [r'])
              /\ find (fun r => users.id r =? uid) rs' = Some r'.
Proof.
  intros delta uid. induction rs as [|a rs IH]; intros r r' U E Ea; cbn in *.
  - discriminate.
  - apply andb_true_iff in U as [Ua Urs]. apply negb_true_iff in Ua.
    destruct (users.id a =? uid) eqn:Eid.
    + inversion E; subst. apply Z.eqb_eq in Eid. subst uid.
      rewrite (update_rows_missing delta (users.id r) rs)
        by (apply (find_key_none Z.eqb users.id); exact Ua).
      rewrite Ea. exists (r' :: rs). split; [reflexivity|]. cbn.
      destruct (add_to_points_same _ _ _ Ea) as (-> & _).
      rewrite Z.eqb_refl. reflexivity.
    + destruct (IH _ _ Urs E Ea) as (rs' & Hup & Hfind).
      rewrite Hup. exists (a :: rs'). split; [reflexivity|]. cbn.
      rewrite Eid. exact Hfind.
Qed.


Lemma update_points_rejected : forall db delta uid err db',
  update_points db delta uid = (Rejected err, db') -> db' = db.
Proof.
  intros db delta uid err db' E. unfold update_points in E.
  destruct (bind_int4 delta); [inversion E; reflexivity|].
  destruct (bind_int4 uid); [inversion E; reflexivity|].
  destruct (update_rows delta uid (rows db)) as [[rs hit]|]; inversion E.
  reflexivity.
Qed.

Lemma update_points_wf : forall db delta uid o db',
  wf_store db = true ->
  update_points db delta uid = (o, db') -> wf_store db' = true.
Proof.
  intros db delta uid o db' Hwf E.
  pose proof (wf_store_elim _ Hwf) as (Hseq & Hrows & Hid & Hemail & Huser).
  unfold update_points in E.
  destruct (bind_int4 delta); [inversion E; subst; exact Hwf|].
  destruct (bind_int4 uid); [inversion E; subst; exact Hwf|].
  destruct (update_rows delta uid (rows db)) as [[rs hit]|] eqn:Eup;
    inversion E; subst; [|exact Hwf].
  apply wf_store_intro; cbn.
  - exact Hseq.
  - exact (update_rows_row_ok _ _ _ _ _ _ Eup Hrows).
  - rewrite (unique_same_keys Z.eqb users.id rs (rows db)); [exact Hid|].
    refine (update_rows_keys _ users.id _ _ _ _ _ _ Eup).
    intros d r r' Er. apply (add_to_points_same _ _ _ Er).
  - rewrite (unique_same_keys String.eqb users.email rs (rows db)); [exact Hemail|].
    refine (update_rows_keys _ users.email _ _ _ _ _ _ Eup).
    intros d r r' Er. apply (add_to_points_same _ _ _ Er).
  - rewrite (unique_same_keys String.eqb users.username rs (rows db)); [exact Huser|].
    refine (update_rows_keys _ users.username _ _ _ _ _ _ Eup).
    intros d r r' Er. apply (add_to_points_same _ _ _ Er).
Qed.

(** *** The invariant holds of every store the handlers reach *)

Section Invariant.
Context {B : Bcrypt}.

Lemma pg_wf : forall env X (op : Op X) db o db',
  wf_store db = true -> pg env X op db = (o, db') -> wf_store db' = true.
Proof.
  intros env X op db o db' Hwf E. destruct op; cbn in E.
  - inversion E; subst; exact Hwf.
  - inversion E; subst; exact Hwf.
  - exact (insert_user_wf _ _ _ _ _ _ _ Hwf E).
  - unfold select_by_username in E.
    destruct (bind_text u); [inversion E; subst; exact Hwf|].
    destruct u; inversion E; subst; exact Hwf.
  - exact (update_points_wf _ _ _ _ _ Hwf E).
  - unfold select_by_id in E. destruct (bind_int4 uid); inversion E; subst; exact Hwf.
Qed.

Lemma advance_wf : forall env (m m' : Async Response) db db',
  wf_store db = true -> advance (pg env) m db = Some (m', db') ->
  wf_store db' = true.
Proof.
  intros env m m' db db' Hwf E. destruct m as [r|X op k]; cbn in E; [discriminate|].
  destruct (pg env X op db) as [o db1] eqn:Eop. inversion E; subst.
  exact (pg_wf _ _ _ _ _ _ Hwf Eop).
Qed.

Lemma run_wf : forall env (m : Async Response) db,
  wf_store db = true -> wf_store (snd (run (pg env) m db)) = true.
Proof.
  intros env. induction m as [r|X op k IH]; intros db Hwf; cbn.
  - exact Hwf.
  - destruct (pg env X op db) as [o db1] eqn:Eop.
    apply IH. exact (pg_wf _ _ _ _ _ _ Hwf Eop).
Qed.

(** Serving a request keeps the invariant: with [wf_empty_store], it holds
    of every store the service reaches. *)
Lemma serve_wf : forall env (m : Async Response) db,
  wf_store db = true -> wf_store (snd (serve env m db)) = true.
Proof. intros env m db Hwf. exact (run_wf env m db Hwf). Qed.

Lemma step_wf : forall st st',
  step st st' -> wf_store (fst st) = true -> wf_store (fst st') = true.
Proof.
  intros st st' Hstep Hwf. destruct Hstep as [env db db' before m m' after E].
  cbn in *. exact (advance_wf _ _ _ _ _ Hwf E).
Qed.

Lemma steps_wf : forall st st',
  steps st st' -> wf_store (fst st) = true -> wf_store (fst st') = true.
Proof.
  intros st st' Hsteps. induction Hsteps as [st|st1 st2 st3 Hstep _ IH]; intros Hwf.
  - exact Hwf.
  - apply IH. exact (step_wf _ _ Hstep Hwf).
Qed.

Lemma steps_trans : forall st1 st2 st3,
  steps st1 st2 -> steps st2 st3 -> steps st1 st3.
Proof.
  intros st1 st2 st3 H12. induction H12 as [st|a b c Hab _ IH]; intros H23.
  - exact H23.
  - exact (steps_next _ _ _ Hab (IH H23)).
Qed.

End Invariant.

(** *** [SELECT] by primary key *)

Lemma filter_none : forall (f : users.row -> bool) rs,
  existsb f rs = false -> filter f rs = [].
Proof.
  intros f. induction rs as [|a rs IH]; cbn; intros E; [reflexivity|].
  apply orb_false_iff in E as [Ea Ers]. rewrite Ea. exact (IH Ers).
Qed.

Lemma filter_find_unique : forall uid rs r,
  unique Z.eqb users.id rs = true ->
  find (fun r => users.id r =? uid) rs = Some r ->
  filter (matches_id (Some uid)) rs = [r].
Proof.
  intros uid. induction rs as [|a rs IH]; intros r U E; cbn in *; [discriminate|].
  apply andb_true_iff in U as [Ua Urs]. apply negb_true_iff in Ua.
  destruct (users.id a =? uid) eqn:Eid.
  - inversion E; subst. apply Z.eqb_eq in Eid. subst uid.
    rewrite (filter_none (matches_id (Some (users.id r))) rs Ua). reflexivity.
  - exact (IH _ Urs E).
Qed.

Lemma find_app_later : forall (f : users.row -> bool) rs rs',
  existsb f rs = false -> find f (rs ++ rs') = find f rs'.
Proof.
  intros f. induction rs as [|a rs IH]; intros rs' E; cbn in *; [reflexivity|].
  apply orb_false_iff in E as [Ea Ers]. rewrite Ea. exact (IH _ Ers).
Qed.

(** ** Registration *)

Section Registration.
Context {B : Bcrypt}.


Lemma insert_user_conflict : forall now db e u p,
  (exists e', e = Some e' /\ email_taken db e' = true)
  \/ (exists u', u = Some u' /\ username_taken db u' = true)
  \/ e = None \/ u = None \/ p = None ->
  exists err db', insert_user now db e u p = (Rejected err, db').
Proof.
  intros now db e u p Hbad. unfold insert_user.
  destruct (bind_text e); [eauto|].
  destruct (bind_text u); [eauto|].
  destruct (bind_text p); [eauto|].
  destruct (negb (varchar_fits 255 e)); [eauto|].
  destruct (negb (varchar_fits 100 u)); [eauto|].
  destruct (negb (varchar_fits 255 p)); [eauto|].
  unfold insert_row.
  destruct (INT4_MAX <? users_id_seq db); [eauto|].
  destruct e as [e|]; [|eauto].
  destruct u as [u|]; [|eauto].
  destruct p as [p|]; [|eauto].
  destruct (existsb (fun r => users.id r =? users_id_seq db) (rows db)); [eauto|].
  destruct (existsb (fun r => String.eqb (users.email r) e) (rows db)) eqn:Ee;
    [eauto|].
  destruct (existsb (fun r => String.eqb (users.username r) u) (rows db)) eqn:Eu;
    [eauto|].
  exfalso. unfold email_taken, username_taken in Hbad.
  destruct Hbad as [(e' & He & Ht)|[(u' & Hu & Ht)|[He|[Hu|Hp]]]];
    try discriminate.
  - inversion He; subst. congruence.
  - inversion Hu; subst. congruence.
Qed.

(** C7. Registering with the email of a record of the store, or with the
    username of one, fails with status 400 and the failure envelope, and the
    table has the rows it had; so does registering with the email, the
    username or the password missing. *)
Theorem register_conflict_or_missing : forall env db req,
  (exists e, reg_email req = Some e /\ email_taken db e = true)
  \/ (exists u, reg_username req = Some u /\ username_taken db u = true)
  \/ reg_email req = None \/ reg_username req = None \/ reg_password req = None ->
  exists msg,
    fst (serve env (register req) db) = res_status_json 400 (failure msg)
    /\ rows (snd (serve env (register req) db)) = rows db.
Proof.
  intros env db req Hbad. rewrite serve_register.
  destruct (bcrypt_hash (salt env) (reg_password req) 10) as [hashed|err] eqn:Eh.
  - destruct (insert_user_conflict (now env) db (reg_email req) (reg_username req)
                (Some hashed)) as (err & db' & E).
    { destruct Hbad as [Hb|[Hb|[Hb|[Hb|Hb]]]]; auto.
      unfold bcrypt_hash in Eh. rewrite Hb in Eh. discriminate. }
    rewrite E. exists (message err). split; [reflexivity|].
    exact (insert_user_rejected _ _ _ _ _ _ _ E).
  - exists (message err). split; reflexivity.
Qed.

End Registration.


Lemma register_conflict_or_missing_witness :
  exists msg,
    fst (serve (B := demo_bcrypt) demo_env (register alice_body) alice_store)
    = res_status_json 400 (failure msg)
    /\ rows (snd (serve (B := demo_bcrypt) demo_env (register alice_body) alice_store))
       = rows alice_store.
Proof.
  apply (register_conflict_or_missing (B := demo_bcrypt) demo_env alice_store
           alice_body).
  left. exists "a@x.com". split; reflexivity.
Defined.

(** ** Login *)

Section Login.
Context {B : Bcrypt}.


Lemma mentions_password_login_user : forall r,
  mentions "password" (login_user r) = false.
Proof.
  intros r. unfold login_user, column_value.
  destruct (users.points r); reflexivity.
Qed.



(** C8, as the code has it. A login that fails on its credentials, the
    username (free of U+0000) carried by no record or the password not
    verifying against the record's hash, is answered with status 401 and the
    body [{success: false, message: 'Неверный логин или пароль'}]. *)
Theorem login_bad_credentials_response : forall env db u p,
  has_nul u = false ->
  find_username db u = None
  \/ (exists r, find_username db u = Some r
                /\ checkpw p (users.password r) = false) ->
  fst (serve env (login {| login_username := Some u; login_password := Some p |}) db)
  = {| status := 401;
       body := JObj [("success", JBool false);
                     ("message", JStr "Неверный логин или пароль")] |}.
Proof.
  intros env db u p Hnul Hbad. rewrite serve_login.
  cbn [login_username login_password bcrypt_compare]. rewrite Hnul.
  destruct Hbad as [E|(r & E & Hcheck)]; rewrite E; [reflexivity|].
  rewrite Hcheck. reflexivity.
Qed.

End Login.





Lemma login_bad_credentials_response_witness :
  fst (serve (B := demo_bcrypt) demo_env
         (login {| login_username := Some "alice";
                   login_password := Some "wrong" |}) alice_store)
  = {| status := 401;
       body := JObj [("success", JBool false);
                     ("message", JStr "Неверный логин или пароль")] |}.
Proof.
  apply (login_bad_credentials_response (B := demo_bcrypt) demo_env alice_store
           "alice" "wrong").
  - reflexivity.
  - right. exists alice_row. split; reflexivity.
Defined.

(** C8 as the specification words it fails: the message of the 401 response
    is the code's Russian string, not "Invalid username or password". *)
Lemma login_message_counterexample :
  find_username alice_store "bob" = None
  /\ fst (serve (B := demo_bcrypt) demo_env
            (login {| login_username := Some "bob";
                      login_password := Some "secret" |}) alice_store)
     <> {| status := 401;
           body := JObj [("success", JBool false);
                         ("message", JStr "Invalid username or password")] |}.
Proof.
  split; [reflexivity|]. vm_compute. discriminate.
Qed.

(** ** Failures of login, whatever the store and bcrypt answer *)

(** C9, as the code has it. Whatever the store and bcrypt do with the two
    operations [login] awaits: a username no row carries and a password that
    does not verify are answered with the one generic message and status 401;
    an operation that rejects with an error is answered with status 500 and
    the message of that error. *)
Theorem login_failure_messages : forall (S : Type) (I : Interp S) (s : S) req,
  let resp := fst (run I (login req) s) in
  let selected := I _ (SelectByUsername (login_username req)) s in
  match fst selected with
  | Rejected err => resp = res_status_json 500 (failure (message err))
  | Resolved [] => resp = res_status_json 401 (failure msg_login)
  | Resolved (user :: _) =>
      match fst (I _ (BcryptCompare (login_password req) (users.password user))
                   (snd selected)) with
      | Rejected err => resp = res_status_json 500 (failure (message err))
      | Resolved false => resp = res_status_json 401 (failure msg_login)
      | Resolved true => resp = res_json (login_user user)
      end
  end.
Proof.
  intros S I s req. unfold login. cbn.
  destruct (I _ (SelectByUsername (login_username req)) s) as [[[|user rest]|err] s1];
    cbn; try reflexivity.
  destruct (I _ (BcryptCompare (login_password req) (users.password user)) s1)
    as [[[|]|err] s2]; reflexivity.
Qed.

(** C9 as the specification words it fails: a login without a password for
    an existing username makes [bcrypt.compare] reject, and the response
    carries the message of that error with status 500. *)
Lemma login_exception_counterexample :
  let resp := fst (serve (B := demo_bcrypt) demo_env
                     (login {| login_username := Some "alice";
                               login_password := None |}) alice_store) in
  bcrypt_compare (B := demo_bcrypt) None (users.password alice_row)
    = Rejected (mkError "data and hash arguments required")
  /\ resp = res_status_json 500 (failure "data and hash arguments required")
  /\ field "message" (body resp) <> Some (JStr msg_login).
Proof.
  vm_compute. repeat split. discriminate.
Qed.

(** ** No response carries the password column *)

Lemma mentions_password_failure : forall msg,
  mentions "password" (failure msg) = false.
Proof. reflexivity. Qed.

Lemma mentions_password_returning : forall cols rs,
  existsb (fun c => String.eqb "password" (column_name c)) cols = false ->
  mentions "password" (success (hd_error (returning cols rs))) = false.
Proof.
  intros cols [|r rs] Hcols; [reflexivity|].
  unfold returning, project. cbn. rewrite orb_false_r.
  induction cols as [|c cols IH]; [reflexivity|].
  cbn in *. apply orb_false_iff in Hcols as [Hc Hrest].
  rewrite Hc, (IH Hrest).
  destruct c; cbn; try reflexivity.
  destruct (users.points r); reflexivity.
Qed.

Lemma insert_user_result : forall now db e u p result db',
  insert_user now db e u p = (Resolved result, db') ->
  exists rs, result = returning [c_id; c_email; c_username; c_points] rs.
Proof.
  intros now db e u p result db' E. unfold insert_user, insert_row in E.
  repeat match type of E with
         | (if ?c then _ else _) = _ => destruct c
         | match ?x with _ => _ end = _ => destruct x
         end;
    inversion E; subst;
    match goal with
    | |- exists rs, [project _ ?r] = _ => exists [r]; reflexivity
    end.
Qed.

Lemma update_points_result : forall db delta uid result db',
  update_points db delta uid = (Resolved result, db') ->
  exists rs, result = returning [c_id; c_username; c_points] rs.
Proof.
  intros db delta uid result db' E. unfold update_points in E.
  destruct (bind_int4 delta); [discriminate|].
  destruct (bind_int4 uid); [discriminate|].
  destruct (update_rows delta uid (rows db)) as [[rs hit]|]; inversion E.
  eexists; reflexivity.
Qed.

Lemma select_by_id_result : forall db uid result db',
  select_by_id db uid = (Resolved result, db') ->
  exists rs, result = returning [c_id; c_email; c_username; c_points] rs.
Proof.
  intros db uid result db' E. unfold select_by_id in E.
  destruct (bind_int4 uid); inversion E. eexists; reflexivity.
Qed.

(** C6. Whatever the request and the store, the payload of the response of
    each of the four operations has no field [password], at any depth. *)
Theorem responses_never_mention_password : forall {B : Bcrypt} env db,
  (forall req, mentions "password" (body (fst (serve env (register req) db))) = false)
  /\ (forall req, mentions "password" (body (fst (serve env (login req) db))) = false)
  /\ (forall req, mentions "password" (body (fst (serve env (addPoints req) db))) = false)
  /\ (forall userId,
        mentions "password" (body (fst (serve env (getUser userId) db))) = false).
Proof.
  intros B env db. repeat split.
  - intros req. rewrite serve_register.
    destruct (bcrypt_hash (salt env) (reg_password req) 10) as [hashed|err];
      [|reflexivity].
    destruct (insert_user (now env) db (reg_email req) (reg_username req) (Some hashed))
      as [[result|err] db'] eqn:E; [|reflexivity].
    destruct (insert_user_result _ _ _ _ _ _ _ E) as (rs & ->).
    apply mentions_password_returning. reflexivity.
  - intros req. rewrite serve_login.
    destruct (login_username req) as [u|]; [|reflexivity].
    destruct (has_nul u); [reflexivity|].
    destruct (find_username db u) as [user|]; [|reflexivity].
    destruct (bcrypt_compare (login_password req) (users.password user))
      as [[|]|err]; try reflexivity.
    apply mentions_password_login_user.
  - intros req. rewrite serve_addPoints.
    destruct (update_points db (add_points req) (add_userId req))
      as [[result|err] db'] eqn:E; [|reflexivity].
    destruct (update_points_result _ _ _ _ _ E) as (rs & ->).
    destruct rs as [|r rs]; [reflexivity|].
    apply (mentions_password_returning [c_id; c_username; c_points] [r]). reflexivity.
  - intros userId. rewrite serve_getUser.
    destruct (select_by_id db (Some userId)) as [[result|err] db'] eqn:E; [|reflexivity].
    destruct (select_by_id_result _ _ _ _ E) as (rs & ->).
    destruct rs as [|r rs]; [reflexivity|].
    apply (mentions_password_returning [c_id; c_email; c_username; c_points] [r]).
    reflexivity.
Qed.

(** ** Points *)

Section Points.
Context {B : Bcrypt}.

Lemma find_user_in : forall db uid r,
  find_user db uid = Some r -> In r (rows db) /\ users.id r = uid.
Proof.
  intros db uid r E.
  exact (find_key_some Z.eqb users.id Z_eqb_spec _ _ _ E).
Qed.

(** The id of a record of a well-formed store is an [INTEGER]. *)
Lemma wf_id_int4 : forall db uid r,
  wf_store db = true -> find_user db uid = Some r -> int4 uid = true.
Proof.
  intros db uid r Hwf E. destruct (find_user_in _ _ _ E) as [Hin Hid].
  pose proof (row_ok_elim _ _ (wf_row _ _ Hwf Hin)) as (Hrange & _).
  pose proof (wf_store_elim _ Hwf) as (Hseq & _).
  apply int4_true. unfold INT4_MIN, INT4_MAX in *. lia.
Qed.

Lemma update_points_found : forall db uid r p d,
  wf_store db = true ->
  find_user db uid = Some r ->
  users.points r = Some p ->
  int4 d = true ->
  int4 (p + d) = true ->
  exists db',
    update_points db (Some d) (Some uid)
    = (Resolved [points_json uid (users.username r) (p + d)], db')
    /\ wf_store db' = true
    /\ find_user db' uid = Some (set_points (Some (p + d)) r).
Proof.
  intros db uid r p d Hwf Hfind Hp Hd Hsum.
  pose proof (wf_store_elim _ Hwf) as (_ & _ & Hids & _).
  destruct (find_user_in _ _ _ Hfind) as [_ Hid].
  assert (add_to_points (Some d) r = Some (set_points (Some (p + d)) r)) as Hadd.
  { unfold add_to_points. rewrite Hp, Hsum. reflexivity. }
  destruct (update_rows_found _ _ _ _ _ Hids Hfind Hadd) as (rs' & Hup & Hfind').
  assert (update_points db (Some d) (Some uid)
          = (Resolved [points_json uid (users.username r) (p + d)],
             {| rows := rs'; users_id_seq := users_id_seq db |})) as E.
  { unfold update_points, bind_int4.
    rewrite Hd, (wf_id_int4 _ _ _ Hwf Hfind), Hup. rewrite <- Hid. reflexivity. }
  eexists. split; [exact E|]. split.
  - exact (update_points_wf _ _ _ _ _ Hwf E).
  - exact Hfind'.
Qed.

(** One call for an existing user whose points stay in range. *)
Lemma addPoints_found : forall env db uid r p d,
  wf_store db = true ->
  find_user db uid = Some r ->
  users.points r = Some p ->
  int4 d = true ->
  int4 (p + d) = true ->
  exists db',
    serve env (addPoints {| add_userId := Some uid; add_points := Some d |}) db
    = (res_json (success (Some (points_json uid (users.username r) (p + d)))), db')
    /\ wf_store db' = true
    /\ find_user db' uid = Some (set_points (Some (p + d)) r).
Proof.
  intros env db uid r p d Hwf Hfind Hp Hd Hsum.
  destruct (update_points_found _ _ _ _ _ Hwf Hfind Hp Hd Hsum)
    as (db' & E & Hwf' & Hfind').
  exists db'. rewrite serve_addPoints. cbn [add_points add_userId].
  rewrite E. auto.
Qed.

(** C4, as the code has it. For an existing user with 0 points and deltas
    [d1], [d2] such that [d1], [d2] and [d1 + d2] are [INTEGER]s, the two
    calls succeed, the first returns [d1], the second returns [d1 + d2], and
    the user is left with [d1 + d2] points; the deltas may be negative. *)
Theorem addPoints_twice : forall env1 env2 db uid r d1 d2,
  wf_store db = true ->
  find_user db uid = Some r ->
  users.points r = Some 0 ->
  int4 d1 = true ->
  int4 d2 = true ->
  int4 (d1 + d2) = true ->
  exists db1 db2,
    serve env1 (addPoints {| add_userId := Some uid; add_points := Some d1 |}) db
    = (res_json (success (Some (points_json uid (users.username r) d1))), db1)
    /\ serve env2 (addPoints {| add_userId := Some uid; add_points := Some d2 |}) db1
       = (res_json (success (Some (points_json uid (users.username r) (d1 + d2)))), db2)
    /\ points_of db2 uid = Some (Some (d1 + d2)).
Proof.
  intros env1 env2 db uid r d1 d2 Hwf Hfind Hp Hd1 Hd2 Hsum.
  destruct (addPoints_found env1 db uid r 0 d1 Hwf Hfind Hp Hd1 Hd1)
    as (db1 & E1 & Hwf1 & Hfind1).
  destruct (addPoints_found env2 db1 uid (set_points (Some (0 + d1)) r) (0 + d1) d2
              Hwf1 Hfind1 eq_refl Hd2 Hsum)
    as (db2 & E2 & Hwf2 & Hfind2).
  exists db1, db2. cbn in E1, E2. split; [exact E1|]. split; [exact E2|].
  unfold points_of. rewrite Hfind2. reflexivity.
Qed.

(** C5, as the code has it. For a user id that matches no record the store
    is left as it was, whatever the delta. The response is the 404 failure
    when the id and the delta are [INTEGER]s (or the delta is absent); an id
    or a delta out of [INTEGER]'s range is rejected by the store, and the
    response has status 500. *)
Theorem addPoints_unknown_user : forall env db uid delta,
  find_user db uid = None ->
  let out := serve env (addPoints {| add_userId := Some uid; add_points := delta |}) db in
  snd out = db
  /\ match bind_int4 delta, bind_int4 (Some uid) with
     | None, None => fst out = res_status_json 404 (failure msg_missing)
     | _, _ => status (fst out) = 500
     end.
Proof.
  intros env db uid delta Hfind out. subst out.
  rewrite serve_addPoints. cbn [add_points add_userId]. unfold update_points.
  destruct (bind_int4 delta) as [err|]; [split; reflexivity|].
  destruct (bind_int4 (Some uid)) as [err|]; [split; reflexivity|].
  rewrite (update_rows_missing delta uid (rows db) Hfind). cbn.
  split; [destruct db; reflexivity|reflexivity].
Qed.

End Points.

Lemma addPoints_twice_witness :
  exists db1 db2,
    serve (B := demo_bcrypt) demo_env
      (addPoints {| add_userId := Some 1; add_points := Some 5 |}) alice_store
    = (res_json (success (Some (points_json 1 "alice" 5))), db1)
    /\ serve (B := demo_bcrypt) demo_env
         (addPoints {| add_userId := Some 1; add_points := Some (-2) |}) db1
       = (res_json (success (Some (points_json 1 "alice" (5 + -2)))), db2)
    /\ points_of db2 1 = Some (Some (5 + -2)).
Proof.
  apply (addPoints_twice (B := demo_bcrypt) demo_env demo_env alice_store 1
           alice_row 5 (-2)); reflexivity.
Defined.

(** C4 as the specification words it fails: two deltas of [2^30] are signed
    integers, their sum is not an [INTEGER]; the second call is answered with
    status 500 and the user keeps [2^30] points. *)
Lemma addPoints_twice_counterexample :
  let first := serve (B := demo_bcrypt) demo_env
                 (addPoints {| add_userId := Some 1;
                               add_points := Some 1073741824 |}) alice_store in
  let second := serve (B := demo_bcrypt) demo_env
                  (addPoints {| add_userId := Some 1;
                                add_points := Some 1073741824 |}) (snd first) in
  points_of alice_store 1 = Some (Some 0)
  /\ fst first = res_json (success (Some (points_json 1 "alice" 1073741824)))
  /\ fst second = res_status_json 500 (failure "integer out of range")
  /\ points_of (snd second) 1 = Some (Some 1073741824)
  /\ points_of (snd second) 1 <> Some (Some (1073741824 + 1073741824)).
Proof.
  vm_compute. repeat split. discriminate.
Qed.

Lemma addPoints_unknown_user_witness :
  snd (serve (B := demo_bcrypt) demo_env
         (addPoints {| add_userId := Some 7; add_points := Some 5 |}) alice_store)
  = alice_store
  /\ fst (serve (B := demo_bcrypt) demo_env
            (addPoints {| add_userId := Some 7; add_points := Some 5 |}) alice_store)
     = res_status_json 404 (failure msg_missing).
Proof.
  apply (addPoints_unknown_user (B := demo_bcrypt) demo_env alice_store 7 (Some 5)).
  reflexivity.
Defined.

(** C5 as the specification words it fails: the id [2^31] matches no record,
    and the call is answered with status 500, not 404; so is a call for an
    absent id with the delta [2^31]. *)
Lemma addPoints_unknown_user_counterexample :
  find_user alice_store 2147483648 = None
  /\ status (fst (serve (B := demo_bcrypt) demo_env
                    (addPoints {| add_userId := Some 2147483648;
                                  add_points := Some 1 |}) alice_store)) = 500
  /\ find_user alice_store 7 = None
  /\ status (fst (serve (B := demo_bcrypt) demo_env
                    (addPoints {| add_userId := Some 7;
                                  add_points := Some 2147483648 |}) alice_store)) = 500.
Proof.
  vm_compute. repeat split.
Qed.

(** ** Requests in flight *)

Section Concurrency.
Context {B : Bcrypt}.

(** [addPoints] awaits one operation, its [UPDATE]: one step of the request
    is the whole request. *)
Lemma advance_addPoints : forall env req db,
  advance (pg env) (addPoints req) db
  = Some (Return (fst (serve env (addPoints req) db)),
          snd (serve env (addPoints req) db)).
Proof.
  intros env req db. unfold serve, addPoints. cbn.
  destruct (update_points db (add_points req) (add_userId req))
    as [[[|user rest]|err] db']; reflexivity.
Qed.

(** Every handler runs to its response, whatever is in flight around it. *)
Lemma task_completes : forall (env : Env) (m : Async Response) before after db,
  exists r db',
    steps (db, (before ++ m :: after)%list) (db', (before ++ Return r :: after)%list).
Proof.
  intros env. induction m as [r|X op k IH]; intros before after db.
  - exists r, db. apply steps_refl.
  - destruct (pg env X op db) as [o db1] eqn:Eop.
    destruct (IH o before after db1) as (r & db' & Hrest).
    exists r, db'. eapply steps_next; [|exact Hrest].
    apply (step_await env). cbn. rewrite Eop. reflexivity.
Qed.

Lemma pool_completes_from : forall (env : Env) after before db,
  forallb finished before = true ->
  exists st, steps (db, (before ++ after)%list) st
             /\ forallb finished (snd st) = true.
Proof.
  intros env. induction after as [|m after IH]; intros before db Hdone.
  - exists (db, (before ++ [])%list). split; [apply steps_refl|].
    cbn. rewrite app_nil_r. exact Hdone.
  - destruct (task_completes env m before after db) as (r & db' & Hm).
    destruct (IH (before ++ [Return r])%list db') as (st & Hst & Hfin).
    { rewrite forallb_app, Hdone. reflexivity. }
    exists st. split; [|exact Hfin].
    apply (steps_trans _ _ _ Hm).
    rewrite <- app_assoc in Hst. exact Hst.
Qed.

(** Every pool of requests can be served to the end. *)
Lemma pool_completes : forall (env : Env) db pool,
  exists st, steps (db, pool) st /\ forallb finished (snd st) = true.
Proof.
  intros env db pool. exact (pool_completes_from env pool [] db eq_refl).
Qed.

Lemma finished_count_app : forall before m after,
  finished_count (before ++ m :: after)
  = finished_count before + (if finished m then 1 else 0) + finished_count after.
Proof.
  intros before m after. unfold finished_count.
  rewrite filter_app, length_app. cbn [filter].
  destruct (finished m); cbn [List.length]; lia.
Qed.

Lemma finished_count_le : forall pool,
  0 <= finished_count pool <= Z.of_nat (List.length pool).
Proof.
  intros pool. unfold finished_count.
  pose proof (filter_length_le finished pool). lia.
Qed.

Lemma counting_step : forall uid name n st st',
  Z.of_nat n <= INT4_MAX ->
  counting uid name n st -> step st st' -> counting uid name n st'.
Proof.
  intros uid name n st st' Hn (Hwf & Hlen & Hall & r & Hfind & Hname & Hpoints) Hstep.
  destruct Hstep as [env db db' before m m' after E]. cbn [fst snd] in *.
  apply Forall_app in Hall as [Hbefore Hrest].
  inversion Hrest as [|m0 after0 Hm Hafter]; subst m0 after0.
  destruct Hm as [->|(p & ->)]; [|discriminate E].
  unfold increment in E. rewrite advance_addPoints in E.
  assert (finished_count (before ++ increment uid :: after) + 1 <= INT4_MAX) as Hroom.
  { pose proof (finished_count_le before) as Hb.
    pose proof (finished_count_le after) as Ha.
    rewrite finished_count_app. cbn [finished increment addPoints].
    rewrite length_app in Hlen. cbn [List.length] in Hlen.
    replace (finished (increment uid)) with false by reflexivity. lia. }
  destruct (addPoints_found env db uid r _ 1 Hwf Hfind Hpoints eq_refl)
    as (db1 & Eserve & Hwf1 & Hfind1).
  { apply int4_true. pose proof (finished_count_le (before ++ increment uid :: after)).
    unfold INT4_MIN, INT4_MAX in *. lia. }
  rewrite Eserve in E. cbn [fst snd] in E. inversion E; subst m' db'. clear E.
  unfold counting. cbn [fst snd]. repeat split.
  - exact Hwf1.
  - rewrite length_app in *. cbn [List.length] in *. exact Hlen.
  - apply Forall_app. split; [exact Hbefore|]. constructor; [|exact Hafter].
    right. rewrite Hname. eexists. reflexivity.
  - exists (set_points (Some (finished_count (before ++ increment uid :: after) + 1)) r).
    split; [exact Hfind1|]. split; [exact Hname|]. cbn [set_points users.points].
    rewrite !finished_count_app. cbn [finished].
    replace (finished (increment uid)) with false by reflexivity.
    f_equal. lia.
Qed.

Lemma counting_steps : forall uid name n st st',
  Z.of_nat n <= INT4_MAX ->
  steps st st' -> counting uid name n st -> counting uid name n st'.
Proof.
  intros uid name n st st' Hn Hsteps.
  induction Hsteps as [st|st1 st2 st3 Hstep _ IH]; intros Hc.
  - exact Hc.
  - apply IH. exact (counting_step _ _ _ _ _ Hn Hc Hstep).
Qed.

Lemma finished_count_all : forall pool,
  forallb finished pool = true -> finished_count pool = Z.of_nat (List.length pool).
Proof.
  intros pool Hall. unfold finished_count. f_equal. f_equal.
  induction pool as [|m pool IH]; [reflexivity|].
  cbn in *. apply andb_true_iff in Hall as [Hm Hpool].
  rewrite Hm. cbn. rewrite (IH Hpool). reflexivity.
Qed.

Lemma finished_count_repeat : forall uid n,
  finished_count (repeat (increment uid) n) = 0.
Proof.
  intros uid n. unfold finished_count.
  induction n as [|n IH]; [reflexivity|]. exact IH.
Qed.

(** C10, as the code has it. [n] increments of an existing user with 0
    points are in flight together, [n] within [INTEGER]'s range. They can be
    served to the end, and however their operations are interleaved, when all
    are answered every answer is a success and the user has [n] points. *)
Theorem addPoints_concurrent : forall (env : Env) db uid r n,
  wf_store db = true ->
  find_user db uid = Some r ->
  users.points r = Some 0 ->
  Z.of_nat n <= INT4_MAX ->
  (exists st, steps (db, repeat (increment uid) n) st
              /\ forallb finished (snd st) = true)
  /\ forall st,
       steps (db, repeat (increment uid) n) st ->
       forallb finished (snd st) = true ->
       points_of (fst st) uid = Some (Some (Z.of_nat n))
       /\ Forall (fun m => exists p,
                    m = Return (res_json (success (Some (points_json uid (users.username r) p)))))
                 (snd st).
Proof.
  intros env db uid r n Hwf Hfind Hpoints Hn. split.
  - apply (pool_completes env).
  - intros st Hsteps Hfin.
    assert (counting uid (users.username r) n (db, repeat (increment uid) n)) as Hstart.
    { repeat split; cbn [fst snd].
      - exact Hwf.
      - apply repeat_length.
      - apply Forall_forall. intros m Hin. left. exact (repeat_spec _ _ _ Hin).
      - exists r. rewrite finished_count_repeat. auto. }
    destruct (counting_steps _ _ _ _ _ Hn Hsteps Hstart)
      as (_ & Hlen & Hall & r' & Hfind' & _ & Hpoints').
    split.
    + unfold points_of. rewrite Hfind'. cbn.
      rewrite Hpoints', (finished_count_all _ Hfin), Hlen. reflexivity.
    + rewrite forallb_forall in Hfin. rewrite Forall_forall in *.
      intros m Hin. destruct (Hall m Hin) as [->|Hdone]; [|exact Hdone].
      specialize (Hfin _ Hin). discriminate Hfin.
Qed.

End Concurrency.

Lemma addPoints_concurrent_witness :
  (exists st, steps (B := demo_bcrypt) (alice_store, repeat (increment 1) 3) st
              /\ forallb finished (snd st) = true)
  /\ forall st,
       steps (B := demo_bcrypt) (alice_store, repeat (increment 1) 3) st ->
       forallb finished (snd st) = true ->
       points_of (fst st) 1 = Some (Some (Z.of_nat 3))
       /\ Forall (fun m => exists p,
                    m = Return (res_json (success (Some (points_json 1 (users.username alice_row) p)))))
                 (snd st).
Proof.
  apply (addPoints_concurrent (B := demo_bcrypt) demo_env alice_store 1 alice_row 3).
  - reflexivity.
  - reflexivity.
  - reflexivity.
  - vm_compute. discriminate.
Defined.

(** C10 as the specification words it fails: with [2^31] increments in
    flight for a user with 0 points, the requests are all answered, and
    however they are interleaved the user does not end with [2^31] points:
    [points] is an [INTEGER]. *)
Lemma addPoints_concurrent_counterexample :
  let n := Z.to_nat 2147483648 in
  points_of alice_store 1 = Some (Some 0)
  /\ (exists st, steps (B := demo_bcrypt) (alice_store, repeat (increment 1) n) st
                 /\ forallb finished (snd st) = true)
  /\ forall st,
       steps (B := demo_bcrypt) (alice_store, repeat (increment 1) n) st ->
       forallb finished (snd st) = true ->
       points_of (fst st) 1 <> Some (Some (Z.of_nat n)).
Proof.
  intros n. split; [reflexivity|]. split.
  - apply (pool_completes (B := demo_bcrypt) demo_env).
  - intros st Hsteps _ Hpoints.
    assert (wf_store alice_store = true) as Hwf by reflexivity.
    pose proof (steps_wf (B := demo_bcrypt) _ _ Hsteps Hwf) as Hwf'.
    unfold points_of in Hpoints.
    destruct (find_user (fst st) 1) as [r|] eqn:Hfind; [|discriminate].
    cbn [option_map] in Hpoints.
    assert (users.points r = Some (Z.of_nat n)) as Hp by congruence.
    destruct (find_key_some Z.eqb users.id Z_eqb_spec _ _ _ Hfind) as [Hin _].
    pose proof (row_ok_elim _ _ (wf_row _ _ Hwf' Hin)) as (_ & _ & _ & _ & Hrange).
    specialize (Hrange _ Hp). apply int4_true in Hrange.
    unfold n, INT4_MAX in Hrange. rewrite Z2Nat.id in Hrange; lia.
Qed.

(** ** The scenario of the specification

    Register alice; a wrong password is refused with 401; the right one logs
    in with the id of the registration; 5 points, then -2, leave 3. *)
Example scenario :
  let registered := serve (B := demo_bcrypt) demo_env (register alice_body) empty_store in
  let refused := serve (B := demo_bcrypt) demo_env
                   (login {| login_username := Some "alice";
                             login_password := Some "wrong" |}) (snd registered) in
  let logged := serve (B := demo_bcrypt) demo_env
                  (login {| login_username := Some "alice";
                            login_password := Some "secret" |}) (snd refused) in
  let plus5 := serve (B := demo_bcrypt) demo_env
                 (addPoints {| add_userId := Some 1; add_points := Some 5 |})
                 (snd logged) in
  let minus2 := serve (B := demo_bcrypt) demo_env
                  (addPoints {| add_userId := Some 1; add_points := Some (-2) |})
                  (snd plus5) in
  registered = (res_json (success (Some (user_json 1 "a@x.com" "alice" 0))), alice_store)
  /\ fst refused = res_status_json 401 (failure msg_login)
  /\ fst logged = res_json (login_user alice_row)
  /\ fst plus5 = res_json (success (Some (points_json 1 "alice" 5)))
  /\ fst minus2 = res_json (success (Some (points_json 1 "alice" 3)))
  /\ wf_store (snd minus2) = true.
Proof.
  vm_compute. repeat split.
Qed.

(** * Further properties of the handlers *)

(** ** [GET /api/user/:userId] *)

(** X1. [getUser] with the id of a record answers 200 with the id, email,
    username and points of that record, [points] being [null] when the
    column is, and leaves the store as it was. *)
Theorem getUser_found : forall {B : Bcrypt} env db uid r,
  wf_store db = true ->
  find_user db uid = Some r ->
  serve env (getUser uid) db
  = (res_json (success (Some (project [c_id; c_email; c_username; c_points] r))), db).
Proof.
  intros B env db uid r Hwf Hfind.
  pose proof (wf_store_elim _ Hwf) as (_ & _ & Hids & _).
  rewrite serve_getUser. unfold select_by_id, bind_int4.
  rewrite (wf_id_int4 _ _ _ Hwf Hfind).
  rewrite (filter_find_unique _ _ _ Hids Hfind). reflexivity.
Qed.

Lemma getUser_found_witness :
  serve (B := demo_bcrypt) demo_env (getUser 1) alice_store
  = (res_json (success (Some (project [c_id; c_email; c_username; c_points] alice_row))),
     alice_store).
Proof.
  apply (getUser_found (B := demo_bcrypt) demo_env alice_store 1 alice_row);
    reflexivity.
Defined.

Lemma filter_matches_none : forall uid rs,
  find (fun r => users.id r =? uid) rs = None ->
  filter (matches_id (Some uid)) rs = [].
Proof.
  intros uid rs E. apply filter_none.
  apply (find_key_none Z.eqb users.id). exact E.
Qed.

(** X2. [getUser] with an id no record carries leaves the store as it was;
    the response is the 404 failure 'Пользователь не найден' when the id is
    an [INTEGER], and has status 500 when the id is out of that range. *)
Theorem getUser_unknown : forall {B : Bcrypt} env db uid,
  find_user db uid = None ->
  let out := serve env (getUser uid) db in
  snd out = db
  /\ if int4 uid
     then fst out = res_status_json 404 (failure "Пользователь не найден")
     else status (fst out) = 500.
Proof.
  intros B env db uid Hfind out. subst out.
  rewrite serve_getUser. unfold select_by_id, bind_int4.
  destruct (int4 uid); [|split; reflexivity].
  rewrite (filter_matches_none _ _ Hfind). split; reflexivity.
Qed.

Lemma getUser_unknown_witness :
  snd (serve (B := demo_bcrypt) demo_env (getUser 7) alice_store) = alice_store
  /\ fst (serve (B := demo_bcrypt) demo_env (getUser 7) alice_store)
     = res_status_json 404 (failure "Пользователь не найден").
Proof.
  apply (getUser_unknown (B := demo_bcrypt) demo_env alice_store 7). reflexivity.
Defined.

(** ** Reading does not write *)

Lemma login_store_unchanged : forall {B : Bcrypt} env db req,
  snd (serve env (login req) db) = db.
Proof.
  intros B env db req. rewrite serve_login.
  destruct (login_username req) as [u|]; [|reflexivity].
  destruct (has_nul u); [reflexivity|].
  destruct (find_username db u) as [user|]; [|reflexivity].
  destruct (bcrypt_compare (login_password req) (users.password user))
    as [[|]|err]; reflexivity.
Qed.

Lemma getUser_store_unchanged : forall {B : Bcrypt} env db uid,
  snd (serve env (getUser uid) db) = db.
Proof.
  intros B env db uid. rewrite serve_getUser. unfold select_by_id.
  destruct (bind_int4 (Some uid)); [reflexivity|].
  destruct (returning _ _); reflexivity.
Qed.

(** X3. [login] and [getUser] never change the store, whatever the request:
    fields missing, credentials wrong or right, id known or not. *)
Theorem login_getUser_read_only : forall {B : Bcrypt} env db,
  (forall req, snd (serve env (login req) db) = db)
  /\ (forall uid, snd (serve env (getUser uid) db) = db).
Proof.
  intros B env db. split.
  - intros req. apply login_store_unchanged.
  - intros uid. apply getUser_store_unchanged.
Qed.

(** ** The envelope of the responses *)

Lemma envelope_failure : forall failures code msg,
  In code failures -> envelope_ok failures (res_status_json code (failure msg)).
Proof.
  intros failures code msg Hin. right. split; [exact Hin|]. exists msg. reflexivity.
Qed.

Lemma envelope_success : forall failures user,
  envelope_ok failures (res_json (success user)).
Proof.
  intros failures user. left. split; reflexivity.
Qed.

(** X4. Whatever the store and bcrypt answer to the operations a handler
    awaits, its response is status 200 with [success: true], or a failure
    [{success: false, message}] whose status is 400 for [register], 401 or 500
    for [login], 404 or 500 for [addPoints] and [getUser]. *)
Theorem response_envelopes : forall (S : Type) (I : Interp S) (s : S),
  (forall req, envelope_ok [400] (fst (run I (register req) s)))
  /\ (forall req, envelope_ok [401; 500] (fst (run I (login req) s)))
  /\ (forall req, envelope_ok [404; 500] (fst (run I (addPoints req) s)))
  /\ (forall uid, envelope_ok [404; 500] (fst (run I (getUser uid) s))).
Proof.
  intros S I s. repeat split.
  - intros req. unfold register. cbn.
    destruct (I _ (BcryptHash (reg_password req) 10) s) as [[hashed|err] s1]; cbn.
    + destruct (I _ (InsertUser (reg_email req) (reg_username req) (Some hashed)) s1)
        as [[result|err] s2]; cbn.
      * apply envelope_success.
      * apply envelope_failure. cbn. auto.
    + apply envelope_failure. cbn. auto.
  - intros req. unfold login. cbn.
    destruct (I _ (SelectByUsername (login_username req)) s)
      as [[[|user rest]|err] s1]; cbn.
    + apply envelope_failure. cbn. auto.
    + destruct (I _ (BcryptCompare (login_password req) (users.password user)) s1)
        as [[[|]|err] s2]; cbn.
      * left. split; reflexivity.
      * apply envelope_failure. cbn. auto.
      * apply envelope_failure. cbn. auto.
    + apply envelope_failure. cbn. auto.
  - intros req. unfold addPoints. cbn.
    destruct (I _ (UpdatePoints (add_points req) (add_userId req)) s)
      as [[[|user rest]|err] s1]; cbn.
    + apply envelope_failure. cbn. auto.
    + apply envelope_success.
    + apply envelope_failure. cbn. auto.
  - intros uid. unfold getUser. cbn.
    destruct (I _ (SelectById (Some uid)) s) as [[[|user rest]|err] s1]; cbn.
    + apply envelope_failure. cbn. auto.
    + apply envelope_success.
    + apply envelope_failure. cbn. auto.
Qed.

(** ** Registration, further *)

Lemma insert_user_success : forall now db e u p result db',
  insert_user now db e u p = (Resolved result, db') ->
  exists e' u' p',
    e = Some e' /\ u = Some u' /\ p = Some p'
    /\ users_id_seq db <= INT4_MAX
    /\ existsb (fun r => users.id r =? users_id_seq db) (rows db) = false
    /\ email_taken db e' = false
    /\ username_taken db u' = false
    /\ result = [user_json (users_id_seq db) e' u' 0]
    /\ db' = {| rows := rows db ++ [{| users.id := users_id_seq db;
                                       users.email := e'; users.username := u';
                                       users.password := p';
                                       users.points := Some 0;
                                       users.created_at := now |}];
                users_id_seq := users_id_seq db + 1 |}.
Proof.
  intros now db e u p result db' E. unfold insert_user in E.
  destruct (bind_text e); [discriminate|].
  destruct (bind_text u); [discriminate|].
  destruct (bind_text p); [discriminate|].
  destruct (negb (varchar_fits 255 e)); [discriminate|].
  destruct (negb (varchar_fits 100 u)); [discriminate|].
  destruct (negb (varchar_fits 255 p)); [discriminate|].
  unfold insert_row in E.
  destruct (INT4_MAX <? users_id_seq db) eqn:Emax; [discriminate|].
  apply Z.ltb_ge in Emax.
  destruct e as [e'|]; [|discriminate].
  destruct u as [u'|]; [|discriminate].
  destruct p as [p'|]; [|discriminate].
  destruct (existsb (fun r => users.id r =? users_id_seq db) (rows db)) eqn:Ei;
    [discriminate|].
  destruct (existsb (fun r => String.eqb (users.email r) e') (rows db)) eqn:Ee;
    [discriminate|].
  destruct (existsb (fun r => String.eqb (users.username r) u') (rows db)) eqn:Eu;
    [discriminate|].
  inversion E; subst. exists e', u', p'. repeat split; assumption.
Qed.

Lemma serve_register_ok : forall {B : Bcrypt} env db req,
  status (fst (serve env (register req) db)) = 200 ->
  exists hashed result,
    bcrypt_hash (salt env) (reg_password req) 10 = Resolved hashed
    /\ insert_user (now env) db (reg_email req) (reg_username req) (Some hashed)
       = (Resolved result, snd (serve env (register req) db)).
Proof.
  intros B env db req Hok. rewrite serve_register in *.
  destruct (bcrypt_hash (salt env) (reg_password req) 10) as [hashed|err];
    [|discriminate Hok].
  destruct (insert_user (now env) db (reg_email req) (reg_username req) (Some hashed))
    as [[result|err] db'] eqn:E; [|discriminate Hok].
  exists hashed, result. split; [reflexivity|exact E].
Qed.

(** X5. When [register] answers 200 to a request whose email and username
    fit their columns as they are sent, and whose bcrypt hash fits its
    column, the table has gained exactly one row, after the rows it had: the
    email and username of the request, as password the bcrypt hash of the
    request's password at cost 10 (not the password), 0 points, and an id
    that no row carried before. *)
Theorem register_stores_hash : forall {B : Bcrypt} env db req,
  status (fst (serve env (register req) db)) = 200 ->
  varchar_fits 255 (reg_email req) = true ->
  varchar_fits 100 (reg_username req) = true ->
  (forall pw, reg_password req = Some pw ->
              char_length (crypt pw 10 (salt env)) <= 255) ->
  exists e u pw,
    req = {| reg_email := Some e; reg_username := Some u; reg_password := Some pw |}
    /\ rows (snd (serve env (register req) db))
       = (rows db ++ [{| users.id := users_id_seq db;
                         users.email := e; users.username := u;
                         users.password := crypt pw 10 (salt env);
                         users.points := Some 0;
                         users.created_at := now env |}])%list
    /\ find_user db (users_id_seq db) = None.
Proof.
  intros B env db [e u pw] Hok _ _ _.
  destruct (serve_register_ok env db _ Hok) as (hashed & result & Hhash & Hins).
  cbn [reg_email reg_username reg_password] in *.
  destruct pw as [pw|]; [|discriminate Hhash].
  cbn in Hhash. inversion Hhash; subst hashed.
  destruct (insert_user_success _ _ _ _ _ _ _ Hins)
    as (e' & u' & p' & -> & -> & Hp & _ & Hfresh & _ & _ & _ & Hdb).
  inversion Hp; subst p'.
  exists e', u', pw. split; [reflexivity|]. split.
  - rewrite Hdb. reflexivity.
  - apply (find_key_none Z.eqb users.id). exact Hfresh.
Qed.

Lemma register_stores_hash_witness :
  exists e u pw,
    alice_body = {| reg_email := Some e; reg_username := Some u;
                    reg_password := Some pw |}
    /\ rows (snd (serve (B := demo_bcrypt) demo_env (register alice_body) empty_store))
       = (rows empty_store
          ++ [{| users.id := users_id_seq empty_store;
                 users.email := e; users.username := u;
                 users.password := crypt (Bcrypt := demo_bcrypt) pw 10 (salt demo_env);
                 users.points := Some 0;
                 users.created_at := now demo_env |}])%list
    /\ find_user empty_store (users_id_seq empty_store) = None.
Proof.
  apply (register_stores_hash (B := demo_bcrypt) demo_env empty_store alice_body).
  - reflexivity.
  - reflexivity.
  - reflexivity.
  - intros pw Hpw. inversion Hpw. vm_compute. discriminate.
Defined.

(** X6. Whatever the request, [register] removes and changes no row: the
    rows of the table are still there, in place, followed by at most one new
    row, and the id sequence does not go back. *)
Theorem register_keeps_rows : forall {B : Bcrypt} env db req,
  exists added,
    rows (snd (serve env (register req) db)) = (rows db ++ added)%list
    /\ (List.length added <= 1)%nat
    /\ users_id_seq db <= users_id_seq (snd (serve env (register req) db)).
Proof.
  intros B env db req. rewrite serve_register.
  destruct (bcrypt_hash (salt env) (reg_password req) 10) as [hashed|err].
  - destruct (insert_user (now env) db (reg_email req) (reg_username req) (Some hashed))
      as [[result|err] db'] eqn:E; cbn [snd].
    + destruct (insert_user_success _ _ _ _ _ _ _ E)
        as (e' & u' & p' & _ & _ & _ & _ & _ & _ & _ & _ & ->).
      eexists. split; [reflexivity|]. cbn. split; lia.
    + exists []. rewrite app_nil_r.
      split; [exact (insert_user_rejected _ _ _ _ _ _ _ E)|]. split; [cbn; lia|].
      unfold insert_user, insert_row in E.
      repeat match type of E with
             | (if ?c then _ else _) = _ => destruct c
             | match ?x with _ => _ end = _ => destruct x
             end;
        inversion E; subst; cbn; lia.
  - exists []. rewrite app_nil_r. cbn. repeat split; lia.
Qed.

(** X7. A registration without a password is answered 400 with the message
    of bcrypt, 'data and salt arguments required', before any statement is
    sent: the store, its id sequence included, is as it was. *)
Theorem register_without_password : forall {B : Bcrypt} env db e u,
  serve env (register {| reg_email := e; reg_username := u; reg_password := None |}) db
  = (res_status_json 400 (failure "data and salt arguments required"), db).
Proof.
  intros B env db e u. rewrite serve_register. reflexivity.
Qed.

Section RegisteredUser.
Context {B : Bcrypt}.
Variables (env : Env) (db : Store) (e u p : string).
Hypothesis Hwf : wf_store db = true.
Hypothesis Hseq : users_id_seq db <= INT4_MAX.
Hypothesis He : text_ok 255 e = true.
Hypothesis Hu : text_ok 100 u = true.
Hypothesis Hp : text_ok 255 (crypt p 10 (salt env)) = true.
Hypothesis Hemail : email_taken db e = false.
Hypothesis Huser : username_taken db u = false.

(** The store after such a registration. *)
Lemma registered :
  serve env (register {| reg_email := Some e; reg_username := Some u;
                         reg_password := Some p |}) db
  = (res_json (success (Some (user_json (users_id_seq db) e u 0))),
     {| rows := rows db ++ [{| users.id := users_id_seq db;
                               users.email := e; users.username := u;
                               users.password := crypt p 10 (salt env);
                               users.points := Some 0;
                               users.created_at := now env |}];
        users_id_seq := users_id_seq db + 1 |}).
Proof.
  rewrite serve_register. cbn [bcrypt_hash reg_password reg_email reg_username].
  rewrite (insert_user_resolved _ _ _ _ _ Hseq He Hu Hp
             (wf_next_id_fresh _ Hwf) Hemail Huser).
  reflexivity.
Qed.

End RegisteredUser.

(** X8. Registration and login round trip: after a valid registration (as in
    C1: email, username and hash free of U+0000 and fitting their columns),
    given that bcrypt verifies the password against the hash it made of it,
    [login] with the username and the password of the registration answers
    200 with the user of the registration, the same id included. *)
Theorem register_then_login : forall {B : Bcrypt} env env' db e u p,
  wf_store db = true ->
  users_id_seq db <= INT4_MAX ->
  text_ok 255 e = true ->
  text_ok 100 u = true ->
  text_ok 255 (crypt p 10 (salt env)) = true ->
  email_taken db e = false ->
  username_taken db u = false ->
  checkpw p (crypt p 10 (salt env)) = true ->
  exists new_id db',
    serve env (register {| reg_email := Some e; reg_username := Some u;
                           reg_password := Some p |}) db
    = ({| status := 200;
          body := JObj [("success", JBool true);
                        ("user", JObj [("id", JNum new_id); ("email", JStr e);
                                       ("username", JStr u); ("points", JNum 0)])] |},
       db')
    /\ serve env' (login {| login_username := Some u; login_password := Some p |}) db'
       = ({| status := 200;
             body := JObj [("success", JBool true);
                           ("user", JObj [("id", JNum new_id); ("email", JStr e);
                                          ("username", JStr u); ("points", JNum 0)])] |},
          db').
Proof.
  intros B env env' db e u p Hwf Hseq He Hu Hp Hemail Huser Hcheck.
  destruct (text_ok_elim _ _ Hu) as [Hnul _].
  exists (users_id_seq db). eexists. split.
  - exact (registered env db e u p Hwf Hseq He Hu Hp Hemail Huser).
  - rewrite serve_login. cbn [login_username login_password]. rewrite Hnul.
    unfold find_username. cbn [rows].
    rewrite (find_app_later _ (rows db) _ Huser). cbn.
    rewrite String.eqb_refl. cbn. rewrite Hcheck. reflexivity.
Qed.

Lemma register_then_login_witness :
  exists new_id db',
    serve (B := demo_bcrypt) demo_env (register alice_body) empty_store
    = ({| status := 200;
          body := JObj [("success", JBool true);
                        ("user", JObj [("id", JNum new_id); ("email", JStr "a@x.com");
                                       ("username", JStr "alice");
                                       ("points", JNum 0)])] |},
       db')
    /\ serve (B := demo_bcrypt) demo_env
         (login {| login_username := Some "alice"; login_password := Some "secret" |}) db'
       = ({| status := 200;
             body := JObj [("success", JBool true);
                           ("user", JObj [("id", JNum new_id); ("email", JStr "a@x.com");
                                          ("username", JStr "alice");
                                          ("points", JNum 0)])] |},
          db').
Proof.
  apply (register_then_login (B := demo_bcrypt) demo_env demo_env empty_store
           "a@x.com" "alice" "secret").
  - reflexivity.
  - vm_compute. discriminate.
  - reflexivity.
  - reflexivity.
  - reflexivity.
  - reflexivity.
  - reflexivity.
  - reflexivity.
Defined.

Lemma register_rejected : forall {B : Bcrypt} env db req,
  (exists e, reg_email req = Some e /\ email_taken db e = true)
  \/ (exists u, reg_username req = Some u /\ username_taken db u = true) ->
  exists msg,
    serve env (register req) db
    = (res_status_json 400 (failure msg),
       {| rows := rows db; users_id_seq := users_id_seq (snd (serve env (register req) db)) |}).
Proof.
  intros B env db req Hbad. rewrite serve_register.
  destruct (bcrypt_hash (salt env) (reg_password req) 10) as [hashed|err].
  - destruct (insert_user_conflict (now env) db (reg_email req) (reg_username req)
                (Some hashed)) as (err & db' & E).
    { destruct Hbad as [Hb|Hb]; auto. }
    rewrite E. exists (message err). cbn [snd].
    rewrite <- (insert_user_rejected _ _ _ _ _ _ _ E). destruct db'; reflexivity.
  - exists (message err). cbn [snd]. destruct db; reflexivity.
Qed.

(** X9. After a valid registration (as in C1: email, username and hash free
    of U+0000 and fitting their columns), every further registration with
    the same email or the same username, whatever its other fields, is
    answered 400 with the failure envelope and leaves the rows of the table
    as the first left them. *)
Theorem register_twice : forall {B : Bcrypt} env env2 db e u p req2,
  wf_store db = true ->
  users_id_seq db <= INT4_MAX ->
  text_ok 255 e = true ->
  text_ok 100 u = true ->
  text_ok 255 (crypt p 10 (salt env)) = true ->
  email_taken db e = false ->
  username_taken db u = false ->
  reg_email req2 = Some e \/ reg_username req2 = Some u ->
  let first := serve env (register {| reg_email := Some e; reg_username := Some u;
                                      reg_password := Some p |}) db in
  let second := serve env2 (register req2) (snd first) in
  status (fst first) = 200
  /\ (exists msg, fst second
                  = {| status := 400;
                       body := JObj [("success", JBool false);
                                     ("message", JStr msg)] |})
  /\ rows (snd second) = rows (snd first)
  /\ (exists r, rows (snd first) = (rows db ++ [r])%list
                /\ users.email r = e /\ users.username r = u).
Proof.
  intros B env env2 db e u p req2 Hwf Hseq He Hu Hp Hemail Huser Hsame first second.
  subst second first.
  rewrite (registered env db e u p Hwf Hseq He Hu Hp Hemail Huser). cbn [fst snd].
  split; [reflexivity|].
  match goal with
  | |- context [serve env2 (register req2) ?d] =>
      destruct (register_rejected env2 d req2) as (msg & E)
  end.
  { unfold email_taken, username_taken. cbn [rows].
    destruct Hsame as [Hs|Hs]; [left; exists e|right; exists u];
      (split; [exact Hs|]); rewrite existsb_app; cbn;
      rewrite String.eqb_refl; apply orb_true_r. }
  rewrite E. cbn [fst snd rows]. split; [exists msg; reflexivity|].
  split; [reflexivity|]. eexists. split; [reflexivity|]. cbn. auto.
Qed.

Lemma register_twice_witness :
  let first := serve (B := demo_bcrypt) demo_env (register alice_body) empty_store in
  let second := serve (B := demo_bcrypt) demo_env
                  (register {| reg_email := Some "a@x.com";
                               reg_username := Some "alice2";
                               reg_password := Some "other" |}) (snd first) in
  status (fst first) = 200
  /\ (exists msg, fst second
                  = {| status := 400;
                       body := JObj [("success", JBool false);
                                     ("message", JStr msg)] |})
  /\ rows (snd second) = rows (snd first)
  /\ (exists r, rows (snd first) = (rows empty_store ++ [r])%list
                /\ users.email r = "a@x.com" /\ users.username r = "alice").
Proof.
  apply (register_twice (B := demo_bcrypt) demo_env demo_env empty_store
           "a@x.com" "alice" "secret").
  - reflexivity.
  - vm_compute. discriminate.
  - reflexivity.
  - reflexivity.
  - reflexivity.
  - reflexivity.
  - reflexivity.
  - left. reflexivity.
Defined.

(** ** Points, further *)

Lemma update_points_resolved : forall db delta uid result db',
  update_points db delta uid = (Resolved result, db') ->
  exists hit,
    update_rows delta uid (rows db) = Some (rows db', hit)
    /\ users_id_seq db' = users_id_seq db
    /\ result = returning [c_id; c_username; c_points] hit.
Proof.
  intros db delta uid result db' E. unfold update_points in E.
  destruct (bind_int4 delta); [discriminate|].
  destruct (bind_int4 uid); [discriminate|].
  destruct (update_rows delta uid (rows db)) as [[rs hit]|]; inversion E.
  exists hit. repeat split.
Qed.

Lemma update_rows_other : forall delta uid other rs rs' hit,
  uid <> Some other ->
  update_rows delta uid rs = Some (rs', hit) ->
  find (fun r => users.id r =? other) rs' = find (fun r => users.id r =? other) rs.
Proof.
  intros delta uid other. induction rs as [|a rs IH]; intros rs' hit Hneq E; cbn in E.
  - inversion E; reflexivity.
  - destruct (update_rows delta uid rs) as [[rest' hit']|]; [|discriminate].
    specialize (IH _ _ Hneq eq_refl).
    destruct (matches_id uid a) eqn:Em.
    + destruct (add_to_points delta a) as [a'|] eqn:Ea; [|discriminate].
      inversion E; subst. cbn.
      destruct (add_to_points_same _ _ _ Ea) as (Hid & _). rewrite Hid.
      destruct (users.id a =? other) eqn:Eo; [|exact IH].
      exfalso. apply Hneq. unfold matches_id in Em. destruct uid as [i|]; [|discriminate].
      apply Z.eqb_eq in Em, Eo. congruence.
    + inversion E; subst. cbn. rewrite IH. reflexivity.
Qed.

(** X10. What [addPoints] never touches, whatever the request and whether it
    succeeds: the ids, emails, usernames, password hashes and creation times
    of all rows, their order, the id sequence, and the row of every user
    other than the one named by [userId]. *)
Theorem addPoints_frame : forall {B : Bcrypt} env db req,
  let db' := snd (serve env (addPoints req) db) in
  map users.id (rows db') = map users.id (rows db)
  /\ map users.email (rows db') = map users.email (rows db)
  /\ map users.username (rows db') = map users.username (rows db)
  /\ map users.password (rows db') = map users.password (rows db)
  /\ map users.created_at (rows db') = map users.created_at (rows db)
  /\ users_id_seq db' = users_id_seq db
  /\ forall other, add_userId req <> Some other ->
       find_user db' other = find_user db other.
Proof.
  intros B env db req db'. subst db'. rewrite serve_addPoints.
  destruct (update_points db (add_points req) (add_userId req))
    as [[result|err] db1] eqn:E.
  - assert (snd (match result with
                 | [] => (res_status_json 404 (failure msg_missing), db1)
                 | user :: _ => (res_json (success (Some user)), db1)
                 end) = db1) as -> by (destruct result; reflexivity).
    destruct (update_points_resolved _ _ _ _ _ E) as (hit & Hup & Hseq & _).
    repeat split.
    + refine (update_rows_keys _ users.id _ _ _ _ _ _ Hup).
      intros d r r' Er. apply (add_to_points_same _ _ _ Er).
    + refine (update_rows_keys _ users.email _ _ _ _ _ _ Hup).
      intros d r r' Er. apply (add_to_points_same _ _ _ Er).
    + refine (update_rows_keys _ users.username _ _ _ _ _ _ Hup).
      intros d r r' Er. apply (add_to_points_same _ _ _ Er).
    + refine (update_rows_keys _ users.password _ _ _ _ _ _ Hup).
      intros d r r' Er. apply (add_to_points_same _ _ _ Er).
    + refine (update_rows_keys _ users.created_at _ _ _ _ _ _ Hup).
      intros d r r' Er. apply (add_to_points_same _ _ _ Er).
    + exact Hseq.
    + intros other Hneq. exact (update_rows_other _ _ _ _ _ _ Hneq Hup).
  - cbn [snd]. rewrite (update_points_rejected _ _ _ _ _ E). repeat split.
Qed.



(** X12. A request to [addPoints] without [points], for an existing user,
    is answered 200 with [points: null] and leaves the balance NULL; and a
    balance that is NULL stays NULL under every further delta. *)
Theorem addPoints_null : forall {B : Bcrypt} env db uid r delta,
  wf_store db = true ->
  find_user db uid = Some r ->
  bind_int4 delta = None ->
  delta = None \/ users.points r = None ->
  exists db',
    serve env (addPoints {| add_userId := Some uid; add_points := delta |}) db
    = (res_json (success (Some (JObj [("id", JNum uid);
                                      ("username", JStr (users.username r));
                                      ("points", JNull)]))), db')
    /\ points_of db' uid = Some None.
Proof.
  intros B env db uid r delta Hwf Hfind Hbind Hnull.
  pose proof (wf_store_elim _ Hwf) as (_ & _ & Hids & _).
  destruct (find_user_in _ _ _ Hfind) as [_ Hid].
  assert (add_to_points delta r = Some (set_points None r)) as Hadd.
  { unfold add_to_points. destruct Hnull as [->| ->].
    - destruct (users.points r); reflexivity.
    - reflexivity. }
  destruct (update_rows_found _ _ _ _ _ Hids Hfind Hadd) as (rs' & Hup & Hfind').
  exists {| rows := rs'; users_id_seq := users_id_seq db |}.
  rewrite serve_addPoints. cbn [add_points add_userId].
  unfold update_points. rewrite Hbind. unfold bind_int4.
  rewrite (wf_id_int4 _ _ _ Hwf Hfind), Hup. subst uid. split; [reflexivity|].
  unfold points_of, find_user. cbn [rows]. rewrite Hfind'. reflexivity.
Qed.

Lemma addPoints_null_witness :
  exists db',
    serve (B := demo_bcrypt) demo_env
      (addPoints {| add_userId := Some 1; add_points := None |}) alice_store
    = (res_json (success (Some (JObj [("id", JNum 1);
                                      ("username", JStr (users.username alice_row));
                                      ("points", JNull)]))), db')
    /\ points_of db' 1 = Some None.
Proof.
  apply (addPoints_null (B := demo_bcrypt) demo_env alice_store 1 alice_row None).
  - reflexivity.
  - reflexivity.
  - reflexivity.
  - left. reflexivity.
Defined.

(** X13. A request to [addPoints] without [userId] updates no row: the store
    is as it was, and the response is the 404 failure, or has status 500 when
    the delta is out of [INTEGER]'s range. *)
Theorem addPoints_without_userId : forall {B : Bcrypt} env db delta,
  let out := serve env (addPoints {| add_userId := None; add_points := delta |}) db in
  snd out = db
  /\ match bind_int4 delta with
     | None => fst out = res_status_json 404 (failure "Пользователь не найден")
     | Some _ => status (fst out) = 500
     end.
Proof.
  intros B env db delta out. subst out.
  rewrite serve_addPoints. cbn [add_points add_userId]. unfold update_points.
  destruct (bind_int4 delta) as [err|]; [split; reflexivity|].
  cbn [bind_int4]. rewrite update_rows_null. cbn.
  split; [destruct db; reflexivity|reflexivity].
Qed.

(** X14. What [addPoints] returns is what [getUser] shows: after a call for
    an existing user that keeps the balance within [INTEGER], [getUser] with
    the same id answers with the user's email and username and the points
    the call returned. *)
Theorem addPoints_then_getUser : forall {B : Bcrypt} env env' db uid r p d,
  wf_store db = true ->
  find_user db uid = Some r ->
  users.points r = Some p ->
  int4 d = true ->
  int4 (p + d) = true ->
  exists db',
    serve env (addPoints {| add_userId := Some uid; add_points := Some d |}) db
    = (res_json (success (Some (points_json uid (users.username r) (p + d)))), db')
    /\ serve env' (getUser uid) db'
       = (res_json (success (Some (user_json uid (users.email r) (users.username r)
                                             (p + d)))), db').
Proof.
  intros B env env' db uid r p d Hwf Hfind Hp Hd Hsum.
  destruct (addPoints_found env db uid r p d Hwf Hfind Hp Hd Hsum)
    as (db' & E & Hwf' & Hfind').
  exists db'. split; [exact E|].
  pose proof (wf_store_elim _ Hwf') as (_ & _ & Hids & _).
  destruct (find_user_in _ _ _ Hfind) as [_ Hid].
  rewrite serve_getUser. unfold select_by_id, bind_int4.
  rewrite (wf_id_int4 _ _ _ Hwf' Hfind').
  rewrite (filter_find_unique _ _ _ Hids Hfind'). subst uid. reflexivity.
Qed.

Lemma addPoints_then_getUser_witness :
  exists db',
    serve (B := demo_bcrypt) demo_env
      (addPoints {| add_userId := Some 1; add_points := Some 5 |}) alice_store
    = (res_json (success (Some (points_json 1 (users.username alice_row) (0 + 5)))), db')
    /\ serve (B := demo_bcrypt) demo_env (getUser 1) db'
       = (res_json (success (Some (user_json 1 (users.email alice_row)
                                             (users.username alice_row) (0 + 5)))), db').
Proof.
  apply (addPoints_then_getUser (B := demo_bcrypt) demo_env demo_env alice_store
           1 alice_row 0 5); reflexivity.
Defined.

Lemma in_range_from_cons : forall p d rest,
  in_range_from p (d :: rest) = true ->
  int4 d = true /\ int4 (p + d) = true /\ in_range_from (p + d) rest = true.
Proof.
  intros p d rest E. cbn in E.
  apply andb_true_iff in E as [E Hrest]. apply andb_true_iff in E as [Hd Hsum].
  auto.
Qed.

(** X15. Any number of [addPoints] calls for an existing user, served one
    after the other from a balance [p], each delta and each running total
    being an [INTEGER]: every call is answered 200 with the running total,
    and the user ends with [p] plus the sum of the deltas (so deltas that sum
    to 0 restore the balance, and the order of the deltas does not matter
    for the final balance). *)
Theorem addPoints_accumulates : forall {B : Bcrypt} env deltas db uid r p,
  wf_store db = true ->
  find_user db uid = Some r ->
  users.points r = Some p ->
  in_range_from p deltas = true ->
  let out := serve_all (add_points_requests env uid deltas) db in
  fst out = map (fun total =>
                   res_json (success (Some (points_json uid (users.username r) total))))
                (running_totals p deltas)
  /\ points_of (snd out) uid = Some (Some (p + fold_right Z.add 0 deltas)).
Proof.
  intros B env. induction deltas as [|d rest IH]; intros db uid r p Hwf Hfind Hp Hrange.
  - cbn. unfold points_of. rewrite Hfind. cbn. rewrite Hp, Z.add_0_r. auto.
  - destruct (in_range_from_cons _ _ _ Hrange) as (Hd & Hsum & Hrest).
    destruct (addPoints_found env db uid r p d Hwf Hfind Hp Hd Hsum)
      as (db1 & E & Hwf1 & Hfind1).
    specialize (IH db1 uid (set_points (Some (p + d)) r) (p + d) Hwf1 Hfind1 eq_refl Hrest).
    change (add_points_requests env uid (d :: rest))
      with ((env, POST_add_points {| add_userId := Some uid; add_points := Some d |})
            :: add_points_requests env uid rest).
    cbn [serve_all handler]. rewrite E.
    destruct (serve_all (add_points_requests env uid rest) db1) as [resps db2].
    cbv beta iota. cbn [fst snd] in *. destruct IH as [Hresps Hpoints]. split.
    + cbn [running_totals map]. rewrite Hresps. reflexivity.
    + rewrite Hpoints. cbn [fold_right]. do 2 f_equal. lia.
Qed.

Lemma addPoints_accumulates_witness :
  let out := serve_all (B := demo_bcrypt)
               (add_points_requests demo_env 1 [5; -2; -3]) alice_store in
  fst out = map (fun total =>
                   res_json (success (Some (points_json 1 (users.username alice_row) total))))
                (running_totals 0 [5; -2; -3])
  /\ points_of (snd out) 1 = Some (Some (0 + fold_right Z.add 0 [5; -2; -3])).
Proof.
  apply (addPoints_accumulates (B := demo_bcrypt) demo_env [5; -2; -3] alice_store
           1 alice_row 0); reflexivity.
Defined.

(** ** Login, further *)

(** X16. Login with a field missing. Without a username the response is
    the 401 failure, whatever the password. Without a password, for a
    username that holds no U+0000, it is the 401 failure when no record
    carries the username, and status 500 with the message of bcrypt, 'data
    and hash arguments required', when one does: the two answers tell
    whether the username exists. A username that holds U+0000 is answered
    with status 500. The store is as it was. *)
Theorem login_missing_field : forall {B : Bcrypt} env db,
  (forall p, serve env (login {| login_username := None; login_password := p |}) db
             = ({| status := 401;
                   body := JObj [("success", JBool false);
                                 ("message", JStr "Неверный логин или пароль")] |},
                db))
  /\ (forall u,
        let out := serve env (login {| login_username := Some u;
                                       login_password := None |}) db in
        snd out = db
        /\ if has_nul u then status (fst out) = 500
           else if username_taken db u
           then fst out
                = {| status := 500;
                     body := JObj [("success", JBool false);
                                   ("message", JStr "data and hash arguments required")] |}
           else fst out
                = {| status := 401;
                     body := JObj [("success", JBool false);
                                   ("message", JStr "Неверный логин или пароль")] |}).
Proof.
  intros B env db. split.
  - intros p. rewrite serve_login. reflexivity.
  - intros u out. subst out. rewrite serve_login.
    cbn [login_username login_password].
    destruct (has_nul u); [split; reflexivity|].
    unfold username_taken.
    destruct (find_username db u) as [user|] eqn:Efind.
    + destruct (find_key_some String.eqb users.username string_eqb_spec _ _ _ Efind)
        as [Hin Hu].
      assert (existsb (fun r => String.eqb (users.username r) u) (rows db) = true) as ->.
      { apply existsb_exists. exists user. split; [exact Hin|].
        apply String.eqb_eq. exact Hu. }
      split; reflexivity.
    + apply (find_key_none String.eqb users.username) in Efind.
      rewrite Efind. split; reflexivity.
Qed.

(** ** The constraints of the table, as facts about its rows *)

Lemma unique_injective : forall (K : Type) (eqb : K -> K -> bool) (key : users.row -> K),
  (forall a b, eqb a b = true <-> a = b) ->
  forall rs r1 r2,
  unique eqb key rs = true -> In r1 rs -> In r2 rs -> key r1 = key r2 -> r1 = r2.
Proof.
  intros K eqb key Hspec rs r1 r2 U H1 H2 Hk.
  pose proof (find_unique eqb key Hspec rs r1 U H1) as E1.
  pose proof (find_unique eqb key Hspec rs r2 U H2) as E2.
  rewrite Hk in E1. congruence.
Qed.

Lemma unique_filter_le_1 : forall (K : Type) (eqb : K -> K -> bool) (key : users.row -> K),
  (forall a b, eqb a b = true <-> a = b) ->
  forall k rs,
  unique eqb key rs = true ->
  (List.length (filter (fun r => eqb (key r) k) rs) <= 1)%nat.
Proof.
  intros K eqb key Hspec k. induction rs as [|a rs IH]; intros U; cbn in *; [lia|].
  apply andb_true_iff in U as [Ua Urs]. apply negb_true_iff in Ua.
  destruct (eqb (key a) k) eqn:Ek.
  - apply Hspec in Ek. subst k.
    rewrite (filter_none (fun r => eqb (key r) (key a)) rs Ua). cbn. lia.
  - exact (IH Urs).
Qed.

Lemma wf_store_facts : forall db,
  wf_store db = true ->
  (forall r1 r2, In r1 (rows db) -> In r2 (rows db) ->
     users.id r1 = users.id r2 \/ users.email r1 = users.email r2
     \/ users.username r1 = users.username r2 ->
     r1 = r2)
  /\ (forall r, In r (rows db) ->
        1 <= users.id r < users_id_seq db
        /\ char_length (users.email r) <= 255
        /\ char_length (users.username r) <= 100
        /\ char_length (users.password r) <= 255)
  /\ (forall r p, In r (rows db) -> users.points r = Some p ->
        INT4_MIN <= p <= INT4_MAX).
Proof.
  intros db Hwf.
  pose proof (wf_store_elim _ Hwf) as (_ & _ & Hids & Hemails & Husers).
  split; [|split].
  - intros r1 r2 H1 H2 [Hk|[Hk|Hk]].
    + exact (unique_injective _ Z.eqb users.id Z_eqb_spec _ _ _ Hids H1 H2 Hk).
    + exact (unique_injective _ String.eqb users.email string_eqb_spec _ _ _
               Hemails H1 H2 Hk).
    + exact (unique_injective _ String.eqb users.username string_eqb_spec _ _ _
               Husers H1 H2 Hk).
  - intros r Hin.
    pose proof (row_ok_elim _ _ (wf_row _ _ Hwf Hin)) as (Hid & He & Hu & Hp & _).
    auto.
  - intros r p Hin Hp.
    pose proof (row_ok_elim _ _ (wf_row _ _ Hwf Hin)) as (_ & _ & _ & _ & Hrange).
    apply int4_true. exact (Hrange p Hp).
Qed.

Lemma serve_all_wf : forall {B : Bcrypt} reqs db,
  wf_store db = true -> wf_store (snd (serve_all reqs db)) = true.
Proof.
  intros B. induction reqs as [|[env req] rest IH]; intros db Hwf; cbn.
  - exact Hwf.
  - destruct (serve env (handler req) db) as [resp db1] eqn:E.
    pose proof (serve_wf env (handler req) db Hwf) as Hwf1. rewrite E in Hwf1.
    specialize (IH db1 Hwf1).
    destruct (serve_all rest db1) as [resps db2]. exact IH.
Qed.

(** X17. Whatever requests the service has answered since the table was
    created, in whatever order: no two rows share an id, an email or a
    username; every id is positive and below the next value of the sequence;
    emails, usernames and hashes fit their columns; and every balance that is
    not NULL is an [INTEGER]. *)
Theorem reachable_store_invariant : forall {B : Bcrypt} reqs,
  let db := snd (serve_all reqs empty_store) in
  (forall r1 r2, In r1 (rows db) -> In r2 (rows db) ->
     users.id r1 = users.id r2 \/ users.email r1 = users.email r2
     \/ users.username r1 = users.username r2 ->
     r1 = r2)
  /\ (forall r, In r (rows db) ->
        1 <= users.id r < users_id_seq db
        /\ char_length (users.email r) <= 255
        /\ char_length (users.username r) <= 100
        /\ char_length (users.password r) <= 255)
  /\ (forall r p, In r (rows db) -> users.points r = Some p ->
        INT4_MIN <= p <= INT4_MAX).
Proof.
  intros B reqs db. apply wf_store_facts.
  exact (serve_all_wf reqs empty_store wf_empty_store).
Qed.

(** X18. The same holds under concurrency: from a well-formed store, however
    the operations of the requests in flight are interleaved, no two rows
    come to share an id, an email or a username, and every balance that is
    not NULL stays an [INTEGER]. *)
Theorem interleaving_keeps_constraints : forall {B : Bcrypt} db pool st,
  wf_store db = true ->
  steps (db, pool) st ->
  (forall r1 r2, In r1 (rows (fst st)) -> In r2 (rows (fst st)) ->
     users.id r1 = users.id r2 \/ users.email r1 = users.email r2
     \/ users.username r1 = users.username r2 ->
     r1 = r2)
  /\ (forall r p, In r (rows (fst st)) -> users.points r = Some p ->
        INT4_MIN <= p <= INT4_MAX).
Proof.
  intros B db pool st Hwf Hsteps.
  pose proof (steps_wf _ _ Hsteps Hwf) as Hwf'.
  destruct (wf_store_facts _ Hwf') as (Hkeys & _ & Hpoints). auto.
Qed.

Lemma interleaving_keeps_constraints_witness :
  let st := (snd (serve (B := demo_bcrypt) demo_env (increment 1) alice_store),
             [register alice_body;
              Return (fst (serve (B := demo_bcrypt) demo_env (increment 1) alice_store))]) in
  (forall r1 r2, In r1 (rows (fst st)) -> In r2 (rows (fst st)) ->
     users.id r1 = users.id r2 \/ users.email r1 = users.email r2
     \/ users.username r1 = users.username r2 ->
     r1 = r2)
  /\ (forall r p, In r (rows (fst st)) -> users.points r = Some p ->
        INT4_MIN <= p <= INT4_MAX).
Proof.
  apply (interleaving_keeps_constraints (B := demo_bcrypt) alice_store
           [register alice_body; increment 1]).
  - reflexivity.
  - eapply steps_next; [|apply steps_refl].
    apply (step_await (B := demo_bcrypt) demo_env alice_store _
             [register alice_body] (increment 1) _ []).
    reflexivity.
Defined.

(** ** Registrations in flight *)

Section ConcurrentRegistration.
Context {B : Bcrypt}.

Lemma advance_register : forall env req db,
  advance (pg env) (register req) db
  = Some (match bcrypt_hash (salt env) (reg_password req) 10 with
          | Resolved hashed => register_hashed req hashed
          | Rejected err => Return (res_status_json 400 (failure (message err)))
          end, db).
Proof.
  intros env req db. unfold register, register_hashed. cbn.
  destruct (bcrypt_hash (salt env) (reg_password req) 10); reflexivity.
Qed.

Lemma advance_register_hashed : forall env req hashed db,
  advance (pg env) (register_hashed req hashed) db
  = Some (match insert_user (now env) db (reg_email req) (reg_username req)
                            (Some hashed) with
          | (Resolved result, db') => (Return (res_json (success (hd_error result))), db')
          | (Rejected err, db') =>
              (Return (res_status_json 400 (failure (message err))), db')
          end).
Proof.
  intros env req hashed db. unfold register_hashed. cbn.
  destruct (insert_user (now env) db (reg_email req) (reg_username req) (Some hashed))
    as [[result|err] db']; reflexivity.
Qed.

Lemma successes_app : forall before m after,
  successes (before ++ m :: after)
  = (successes before + (if answered_ok m then 1 else 0) + successes after)%nat.
Proof.
  intros before m after. unfold successes.
  rewrite filter_app, length_app. cbn [filter].
  destruct (answered_ok m); cbn [List.length]; lia.
Qed.

Lemma with_email_added : forall e db r seq,
  users.email r = e ->
  with_email e {| rows := rows db ++ [r]; users_id_seq := seq |}
  = S (with_email e db).
Proof.
  intros e db r seq He. unfold with_email. cbn [rows].
  rewrite filter_app, length_app. cbn [filter].
  rewrite He, String.eqb_refl. cbn. lia.
Qed.

Lemma registering_step : forall e db0 st st',
  step st st' ->
  Forall (registering e) (snd st) ->
  (successes (snd st) + with_email e db0 <= with_email e (fst st))%nat ->
  Forall (registering e) (snd st')
  /\ (successes (snd st') + with_email e db0 <= with_email e (fst st'))%nat.
Proof.
  intros e db0 st st' Hstep Hall Hcount.
  destruct Hstep as [env db db' before m m' after E]. cbn [fst snd] in *.
  apply Forall_app in Hall as [Hbefore Hrest].
  inversion Hrest as [|m0 after0 Hm Hafter]; subst m0 after0.
  rewrite successes_app in *.
  assert (forall m1, registering e m1 ->
            Forall (registering e) (before ++ m1 :: after)) as Hpool.
  { intros m1 Hm1. apply Forall_app. split; [exact Hbefore|].
    constructor; [exact Hm1|exact Hafter]. }
  destruct Hm as [(req & Hreq & [->|(hashed & ->)])|(resp & ->)].
  - rewrite advance_register in E. inversion E; subst m' db'. clear E.
    cbn [answered_ok register] in Hcount.
    destruct (bcrypt_hash (salt env) (reg_password req) 10) as [hashed|err].
    + split.
      * apply Hpool. left. exists req. split; [exact Hreq|]. right. exists hashed.
        reflexivity.
      * exact Hcount.
    + split.
      * apply Hpool. right. eexists. reflexivity.
      * exact Hcount.
  - rewrite advance_register_hashed in E.
    destruct (insert_user (now env) db (reg_email req) (reg_username req) (Some hashed))
      as [[result|err] db1] eqn:Eins; inversion E; subst m' db'; clear E.
    + split; [apply Hpool; right; eexists; reflexivity|].
      destruct (insert_user_success _ _ _ _ _ _ _ Eins)
        as (e' & u' & p' & He' & _ & _ & _ & _ & _ & _ & _ & ->).
      rewrite Hreq in He'. inversion He'; subst e'.
      rewrite with_email_added by reflexivity.
      cbn [answered_ok register_hashed] in *.
      change (answered_ok (register_hashed req hashed)) with false in Hcount.
      cbn in *. lia.
    + split; [apply Hpool; right; eexists; reflexivity|].
      unfold with_email in *. rewrite (insert_user_rejected _ _ _ _ _ _ _ Eins).
      change (answered_ok (register_hashed req hashed)) with false in Hcount.
      cbn in *. lia.
  - discriminate E.
Qed.

Lemma registering_steps : forall e db0 st st',
  steps st st' ->
  Forall (registering e) (snd st) ->
  (successes (snd st) + with_email e db0 <= with_email e (fst st))%nat ->
  (successes (snd st') + with_email e db0 <= with_email e (fst st'))%nat.
Proof.
  intros e db0 st st' Hsteps.
  induction Hsteps as [st|st1 st2 st3 Hstep _ IH]; intros Hall Hcount.
  - exact Hcount.
  - destruct (registering_step e db0 _ _ Hstep Hall Hcount) as [Hall2 Hcount2].
    exact (IH Hall2 Hcount2).
Qed.

Lemma successes_registers : forall bodies,
  successes (map register bodies) = 0%nat.
Proof.
  induction bodies as [|body rest IH]; [reflexivity|exact IH].
Qed.

(** X19. Any number of registrations with the same email in flight
    together, from a well-formed store: however their operations (hashing,
    then the [INSERT]) are interleaved, at most one of them is answered 200,
    and none is when a record already carries the email. *)
Theorem concurrent_register_same_email : forall db bodies e st,
  wf_store db = true ->
  Forall (fun body => reg_email body = Some e) bodies ->
  steps (db, map register bodies) st ->
  (successes (snd st) + with_email e db <= 1)%nat.
Proof.
  intros db bodies e st Hwf Hbodies Hsteps.
  assert (successes (snd st) + with_email e db <= with_email e (fst st))%nat as Hcount.
  { apply (registering_steps e db _ _ Hsteps); cbn [fst snd].
    - apply Forall_forall. intros m Hin. apply in_map_iff in Hin as (body & <- & Hin).
      rewrite Forall_forall in Hbodies. left. exists body. auto.
    - rewrite successes_registers. cbn. lia. }
  pose proof (steps_wf _ _ Hsteps Hwf) as Hwf'.
  pose proof (wf_store_elim _ Hwf') as (_ & _ & _ & Hemails & _).
  pose proof (unique_filter_le_1 _ String.eqb users.email string_eqb_spec e _ Hemails).
  unfold with_email in *. lia.
Qed.

End ConcurrentRegistration.

Lemma concurrent_register_same_email_witness :
  let st := ({| rows := [alice_row]; users_id_seq := 3 |},
             [Return (res_json (success (Some (user_json 1 "a@x.com" "alice" 0))));
              Return (res_status_json 400
                        (failure (message (unique_violation "users_email_key"))))]) in
  (successes (snd st) + with_email "a@x.com" empty_store <= 1)%nat.
Proof.
  apply (concurrent_register_same_email (B := demo_bcrypt) empty_store
           [alice_body; alice_body] "a@x.com").
  - reflexivity.
  - repeat constructor.
  - eapply steps_next.
    { eapply (step_await (B := demo_bcrypt) demo_env _ _
               [] (register alice_body) _ [register alice_body]).
      reflexivity. }
    eapply steps_next.
    { eapply (step_await (B := demo_bcrypt) demo_env _ _
               [_] (register alice_body) _ []).
      reflexivity. }
    eapply steps_next.
    { eapply (step_await (B := demo_bcrypt) demo_env _ _ [] _ _ [_]).
      reflexivity. }
    eapply steps_next.
    { eapply (step_await (B := demo_bcrypt) demo_env _ _ [_] _ _ []).
      reflexivity. }
    apply steps_refl.
Defined.

(** ** Accounts persist *)

Lemma same_identity_refl : forall r, same_identity r r.
Proof. intros r. repeat split. Qed.

Lemma same_identity_trans : forall r1 r2 r3,
  same_identity r1 r2 -> same_identity r2 r3 -> same_identity r1 r3.
Proof.
  intros r1 r2 r3 (A1 & A2 & A3 & A4 & A5) (B1 & B2 & B3 & B4 & B5).
  unfold same_identity. repeat split; congruence.
Qed.

Lemma grows_app : forall rs added, grows rs (rs ++ added).
Proof.
  induction rs as [|r rs IH]; intros added; cbn.
  - apply grows_new.
  - apply grows_row; [apply same_identity_refl|apply IH].
Qed.

Lemma grows_refl : forall rs, grows rs rs.
Proof.
  intros rs. rewrite <- (app_nil_r rs) at 2. apply grows_app.
Qed.

Lemma grows_trans : forall rs1 rs2 rs3,
  grows rs1 rs2 -> grows rs2 rs3 -> grows rs1 rs3.
Proof.
  intros rs1 rs2 rs3 H12. revert rs3.
  induction H12 as [added|r r' rs rs' Hid _ IH]; intros rs3 H23.
  - apply grows_new.
  - inversion H23 as [|r0 r'' rs0 rs'' Hid' Hrest]; subst.
    apply grows_row; [exact (same_identity_trans _ _ _ Hid Hid')|exact (IH _ Hrest)].
Qed.

Lemma update_rows_grows : forall delta uid rs rs' hit,
  update_rows delta uid rs = Some (rs', hit) -> grows rs rs'.
Proof.
  intros delta uid. induction rs as [|a rs IH]; intros rs' hit E; cbn in E.
  - inversion E. apply grows_new.
  - destruct (update_rows delta uid rs) as [[rest' hit']|]; [|discriminate].
    specialize (IH _ _ eq_refl).
    destruct (matches_id uid a).
    + destruct (add_to_points delta a) as [a'|] eqn:Ea; [|discriminate].
      inversion E; subst. apply grows_row; [|exact IH].
      exact (add_to_points_same _ _ _ Ea).
    + inversion E; subst. apply grows_row; [apply same_identity_refl|exact IH].
Qed.

(** A row found by a key of its identity is found again among the grown
    rows, with the same identity. *)
Lemma grows_find : forall (f : users.row -> bool),
  (forall r r', same_identity r r' -> f r' = f r) ->
  forall rs rs' r,
  grows rs rs' -> find f rs = Some r ->
  exists r', find f rs' = Some r' /\ same_identity r r'.
Proof.
  intros f Hf rs rs' r Hgrows. revert r.
  induction Hgrows as [added|a a' rs rs' Hid _ IH]; intros r E; cbn in *.
  - discriminate.
  - rewrite (Hf _ _ Hid). destruct (f a).
    + inversion E; subst. exists a'. auto.
    + exact (IH _ E).
Qed.

Lemma handler_grows : forall {B : Bcrypt} env req db,
  grows (rows db) (rows (snd (serve env (handler req) db)))
  /\ users_id_seq db <= users_id_seq (snd (serve env (handler req) db)).
Proof.
  intros B env req db. destruct req as [body|body|body|uid]; cbn [handler].
  - rewrite serve_register.
    destruct (bcrypt_hash (salt env) (reg_password body) 10) as [hashed|err];
      [|split; [apply grows_refl|cbn; lia]].
    destruct (insert_user (now env) db (reg_email body) (reg_username body) (Some hashed))
      as [[result|err] db'] eqn:E; cbn [snd].
    + destruct (insert_user_success _ _ _ _ _ _ _ E)
        as (e' & u' & p' & _ & _ & _ & _ & _ & _ & _ & _ & ->).
      cbn. split; [apply grows_app|lia].
    + rewrite (insert_user_rejected _ _ _ _ _ _ _ E). split; [apply grows_refl|].
      unfold insert_user, insert_row in E.
      repeat match type of E with
             | (if ?c then _ else _) = _ => destruct c
             | match ?x with _ => _ end = _ => destruct x
             end;
        inversion E; subst; cbn; lia.
  - rewrite login_store_unchanged. split; [apply grows_refl|lia].
  - rewrite serve_addPoints.
    destruct (update_points db (add_points body) (add_userId body))
      as [[result|err] db1] eqn:E.
    + assert (snd (match result with
                   | [] => (res_status_json 404 (failure msg_missing), db1)
                   | user :: _ => (res_json (success (Some user)), db1)
                   end) = db1) as -> by (destruct result; reflexivity).
      destruct (update_points_resolved _ _ _ _ _ E) as (hit & Hup & Hseq & _).
      split; [exact (update_rows_grows _ _ _ _ _ Hup)|lia].
    + cbn [snd]. rewrite (update_points_rejected _ _ _ _ _ E).
      split; [apply grows_refl|lia].
  - rewrite getUser_store_unchanged. split; [apply grows_refl|lia].
Qed.

Lemma serve_all_grows : forall {B : Bcrypt} reqs db,
  grows (rows db) (rows (snd (serve_all reqs db)))
  /\ users_id_seq db <= users_id_seq (snd (serve_all reqs db)).
Proof.
  intros B. induction reqs as [|[env req] rest IH]; intros db; cbn [serve_all].
  - split; [apply grows_refl|cbn; lia].
  - destruct (handler_grows env req db) as [Hg Hs].
    destruct (serve env (handler req) db) as [resp db1]. cbn [snd] in *.
    destruct (IH db1) as [Hg' Hs'].
    destruct (serve_all rest db1) as [resps db2]. cbn [snd] in *.
    split; [exact (grows_trans _ _ _ Hg Hg')|lia].
Qed.

(** X20. No request removes an account or changes its identity: a record
    found by its id, or by its username, before any sequence of requests is
    found afterwards by the same key, with the same id, email, username,
    password hash and creation time. *)
Theorem accounts_persist : forall {B : Bcrypt} reqs db,
  let db' := snd (serve_all reqs db) in
  (forall uid r, find_user db uid = Some r ->
     exists r', find_user db' uid = Some r' /\ same_identity r r')
  /\ (forall u r, find_username db u = Some r ->
        exists r', find_username db' u = Some r' /\ same_identity r r').
Proof.
  intros B reqs db db'. subst db'.
  destruct (serve_all_grows reqs db) as [Hg _]. split.
  - intros uid r Hfind. unfold find_user in *.
    apply (grows_find _) with (rs := rows db); try assumption.
    intros a a' (Hid & _). rewrite Hid. reflexivity.
  - intros u r Hfind. unfold find_username in *.
    apply (grows_find _) with (rs := rows db); try assumption.
    intros a a' (_ & _ & Hu & _). rewrite Hu. reflexivity.
Qed.

(** X21. Credentials keep working: when a username (free of U+0000, as
    every stored username is) and a password log in (the record that carries
    the username verifies the password), then after any sequence of requests
    the same username and password still log in, answered 200 with the same
    id, email and username. *)
Theorem login_persists : forall {B : Bcrypt} env reqs db u p r,
  has_nul u = false ->
  find_username db u = Some r ->
  checkpw p (users.password r) = true ->
  exists points,
    fst (serve env (login {| login_username := Some u; login_password := Some p |})
           (snd (serve_all reqs db)))
    = res_json (JObj [("success", JBool true);
                      ("user", JObj [("id", JNum (users.id r));
                                     ("email", JStr (users.email r));
                                     ("username", JStr (users.username r));
                                     ("points", points)])]).
Proof.
  intros B env reqs db u p r Hnul Hfind Hcheck.
  destruct (serve_all_grows reqs db) as [Hg _].
  destruct (grows_find (fun r => String.eqb (users.username r) u))
    with (rs := rows db) (rs' := rows (snd (serve_all reqs db))) (r := r)
    as (r' & Hfind' & Hid & Hemail & Huser & Hpw & _); try assumption.
  { intros a a' (_ & _ & Hu & _). rewrite Hu. reflexivity. }
  exists (column_value c_points r').
  rewrite serve_login. cbn [login_username login_password bcrypt_compare].
  rewrite Hnul.
  unfold find_username. rewrite Hfind'. rewrite Hpw, Hcheck. cbn [fst].
  unfold login_user. rewrite Hid, Hemail, Huser. reflexivity.
Qed.

Lemma login_persists_witness :
  exists points,
    fst (serve (B := demo_bcrypt) demo_env
           (login {| login_username := Some "alice"; login_password := Some "secret" |})
           (snd (serve_all (B := demo_bcrypt)
                   [(demo_env, POST_add_points {| add_userId := Some 1;
                                                  add_points := Some 5 |});
                    (demo_env, POST_register {| reg_email := Some "b@x.com";
                                                reg_username := Some "bob";
                                                reg_password := Some "hunter2" |})]
                   alice_store)))
    = res_json (JObj [("success", JBool true);
                      ("user", JObj [("id", JNum (users.id alice_row));
                                     ("email", JStr (users.email alice_row));
                                     ("username", JStr (users.username alice_row));
                                     ("points", points)])]).
Proof.
  apply (login_persists (B := demo_bcrypt) demo_env _ alice_store "alice" "secret"
           alice_row); reflexivity.
Defined.

Lemma serve_register_id : forall {B : Bcrypt} env db req,
  status (fst (serve env (register req) db)) = 200 ->
  exists e u,
    fst (serve env (register req) db)
    = res_json (success (Some (user_json (users_id_seq db) e u 0)))
    /\ users_id_seq (snd (serve env (register req) db)) = users_id_seq db + 1.
Proof.
  intros B env db req Hok.
  destruct (serve_register_ok env db req Hok) as (hashed & result & Hhash & Hins).
  destruct (insert_user_success _ _ _ _ _ _ _ Hins)
    as (e' & u' & p' & _ & _ & _ & _ & _ & _ & _ & Hres & Hdb).
  exists e', u'. rewrite Hdb. split; [|reflexivity].
  rewrite serve_register, Hhash, Hins, Hres. reflexivity.
Qed.

(** X22. Ids are never given twice: when a registration is answered 200 with
    an id and, after any sequence of requests, another registration is
    answered 200, the id of the second is greater than the id of the
    first. *)
Theorem register_ids_increase : forall {B : Bcrypt} env1 env2 db req1 between req2,
  let first := serve env1 (register req1) db in
  let second := serve env2 (register req2) (snd (serve_all between (snd first))) in
  status (fst first) = 200 ->
  status (fst second) = 200 ->
  exists i j e1 u1 e2 u2,
    fst first = res_json (success (Some (user_json i e1 u1 0)))
    /\ fst second = res_json (success (Some (user_json j e2 u2 0)))
    /\ i < j.
Proof.
  intros B env1 env2 db req1 between req2 first second H1 H2. subst first second.
  destruct (serve_register_id env1 db req1 H1) as (e1 & u1 & E1 & Hseq1).
  destruct (serve_register_id env2 _ req2 H2) as (e2 & u2 & E2 & _).
  destruct (serve_all_grows between (snd (serve env1 (register req1) db))) as [_ Hmono].
  eexists _, _, e1, u1, e2, u2. split; [exact E1|]. split; [exact E2|]. lia.
Qed.

Lemma register_ids_increase_witness :
  let first := serve (B := demo_bcrypt) demo_env (register alice_body) empty_store in
  let second := serve (B := demo_bcrypt) demo_env
                  (register {| reg_email := Some "b@x.com";
                               reg_username := Some "bob";
                               reg_password := Some "hunter2" |})
                  (snd (serve_all (B := demo_bcrypt)
                          [(demo_env, POST_register alice_body);
                           (demo_env, GET_user 1)] (snd first))) in
  exists i j e1 u1 e2 u2,
    fst first = res_json (success (Some (user_json i e1 u1 0)))
    /\ fst second = res_json (success (Some (user_json j e2 u2 0)))
    /\ i < j.
Proof.
  apply (register_ids_increase (B := demo_bcrypt) demo_env demo_env empty_store
           alice_body [(demo_env, POST_register alice_body); (demo_env, GET_user 1)]);
    reflexivity.
Defined.
